(** * klippy/extras/pla_sear.py: the PLA_SensorArray serial driver

    A shallow embedding of the driver class [PLA_SensorArray] and of the
    Python string and bytes operations it uses, followed by the properties
    of the line framer, the read and write pumps, the poll callback and
    [disconnect]. *)

From Equations Require Import Equations.
From Stdlib Require Import String Ascii.
From Stdlib Require Import List ZArith QArith Bool Lia.
Import ListNotations.

Local Open Scope Z_scope.

(** ** Python values *)

(** A [str] is its sequence of code points, a [bytes] object its sequence
    of octets. *)
Abbreviation str := (list Z) (only parsing).
Abbreviation bytes := (list Byte.byte) (only parsing).

(** A Python literal, written as a Rocq string. *)
Definition lit (s : string) : str :=
  map (fun c => Z.of_N (N_of_ascii c)) (list_ascii_of_string s).

(** The bytes literal [b"..."]. *)
Definition blit (s : string) : bytes := list_byte_of_string s.

Definition octet (b : Byte.byte) : Z := Z.of_N (Byte.to_N b).

Definition str_eqb (a b : str) : bool :=
  if list_eq_dec Z.eq_dec a b then true else false.

(** *** [bytes.decode()]: strict UTF-8 *)

Definition continuation (b : Z) : bool := (128 <=? b) && (b <=? 191).

Definition between (lo hi b : Z) : bool := (lo <=? b) && (b <=? hi).

Definition low6 (b : Z) : Z := Z.land b 63.

Fixpoint utf8 (bs : list Z) : option str :=
  match bs with
  | [] => Some []
  | b0 :: r0 =>
    if b0 <? 128 then option_map (cons b0) (utf8 r0)
    else if between 194 223 b0 then
      match r0 with
      | b1 :: r1 =>
        if continuation b1
        then option_map (cons (Z.lor (Z.shiftl (Z.land b0 31) 6) (low6 b1)))
                        (utf8 r1)
        else None
      | _ => None
      end
    else if between 224 239 b0 then
      match r0 with
      | b1 :: b2 :: r2 =>
        if between (if b0 =? 224 then 160 else 128)
                   (if b0 =? 237 then 159 else 191) b1
           && continuation b2
        then option_map
               (cons (Z.lor (Z.shiftl (Z.land b0 15) 12)
                            (Z.lor (Z.shiftl (low6 b1) 6) (low6 b2))))
               (utf8 r2)
        else None
      | _ => None
      end
    else if between 240 244 b0 then
      match r0 with
      | b1 :: b2 :: b3 :: r3 =>
        if between (if b0 =? 240 then 144 else 128)
                   (if b0 =? 244 then 143 else 191) b1
           && continuation b2 && continuation b3
        then option_map
               (cons (Z.lor (Z.shiftl (Z.land b0 7) 18)
                            (Z.lor (Z.shiftl (low6 b1) 12)
                                   (Z.lor (Z.shiftl (low6 b2) 6) (low6 b3)))))
               (utf8 r3)
        else None
      | _ => None
      end
    else None
  end.

(** [raw_bytes.decode()]; [None] stands for [UnicodeDecodeError]. *)
Definition decode (raw : bytes) : option str := utf8 (map octet raw).

(** *** [str.encode()]: strict UTF-8 *)

(** The octets of one code point.  A surrogate ([0xD800] to [0xDFFF]) has
    none, and neither has a number that is no code point of a [str]. *)
Definition utf8_octets (c : Z) : option (list Z) :=
  if between 0 127 c then Some [c]
  else if between 128 2047 c then
    Some [Z.lor 192 (Z.shiftr c 6); Z.lor 128 (low6 c)]
  else if between 55296 57343 c then None
  else if between 2048 65535 c then
    Some [Z.lor 224 (Z.shiftr c 12); Z.lor 128 (low6 (Z.shiftr c 6));
          Z.lor 128 (low6 c)]
  else if between 65536 1114111 c then
    Some [Z.lor 240 (Z.shiftr c 18); Z.lor 128 (low6 (Z.shiftr c 12));
          Z.lor 128 (low6 (Z.shiftr c 6)); Z.lor 128 (low6 c)]
  else None.

Definition byte_of (b : Z) : option Byte.byte := Byte.of_N (Z.to_N b).

Fixpoint all_some {A} (l : list (option A)) : option (list A) :=
  match l with
  | [] => Some []
  | Some a :: r => option_map (cons a) (all_some r)
  | None :: _ => None
  end.

(** [text.encode()]; [None] stands for [UnicodeEncodeError]. *)
Fixpoint encode (text : str) : option bytes :=
  match text with
  | [] => Some []
  | c :: rest =>
    match utf8_octets c with
    | None => None
    | Some octets =>
      match all_some (map byte_of octets), encode rest with
      | Some head, Some tail => Some (head ++ tail)
      | _, _ => None
      end
    end
  end.

Definition encodes (text : str) : bool :=
  match encode text with Some _ => true | None => false end.

(** *** [str.find], slices, [strip], [rstrip] *)

Fixpoint startswith (s sub : str) : bool :=
  match sub, s with
  | [], _ => true
  | _ :: _, [] => false
  | c :: sub', d :: s' => (c =? d) && startswith s' sub'
  end.

(** [s.find(sub)]: the lowest index where [sub] occurs, or [-1]. *)
Fixpoint find (s sub : str) : Z :=
  if startswith s sub then 0
  else match s with
       | [] => -1
       | _ :: s' => let i := find s' sub in if i <? 0 then -1 else i + 1
       end.

(** [s[0:j]] and [s[j:]] for [j >= 0]. *)
Definition slice_to (s : str) (j : Z) : str := firstn (Z.to_nat j) s.
Definition slice_from (s : str) (j : Z) : str := skipn (Z.to_nat j) s.

(** The code points [str.isspace] accepts. *)
Definition isspace (c : Z) : bool :=
  between 9 13 c || between 28 32 c || (c =? 133) || (c =? 160)
  || (c =? 5760) || between 8192 8202 c || (c =? 8232) || (c =? 8233)
  || (c =? 8239) || (c =? 8287) || (c =? 12288).

Fixpoint dropwhile (p : Z -> bool) (s : str) : str :=
  match s with
  | [] => []
  | c :: s' => if p c then dropwhile p s' else s
  end.

Definition lstrip_by (p : Z -> bool) (s : str) : str := dropwhile p s.
Definition rstrip_by (p : Z -> bool) (s : str) : str :=
  rev (dropwhile p (rev s)).

(** [s.strip()] *)
Definition strip (s : str) : str := rstrip_by isspace (lstrip_by isspace s).

(** [s.rstrip(chars)] *)
Definition rstrip (s chars : str) : str :=
  rstrip_by (fun c => existsb (Z.eqb c) chars) s.

(** The terminator the framer searches for, ["\r\n"]. *)
Definition CR : Z := 13.
Definition LF : Z := 10.
Definition NUL : Z := 0.
Definition CRLF : str := [CR; LF].

(** ** Exceptions, outcomes and loops *)

Inductive exn : Type :=
| SerialException
| AttributeError
| ValueError
| UnicodeDecodeError
| UnicodeEncodeError.

(** What running a piece of code gives: a value, or a raised exception. *)
Inductive outcome (A : Type) : Type :=
| Returned (a : A)
| Raised (e : exn).
Arguments Returned {A} a.
Arguments Raised {A} e.

(** Code over a mutable state [S]: the state it leaves is kept also when it
    raises, as an [except] clause sees the mutations made before. *)
Definition M (S A : Type) : Type := S -> outcome A * S.

Definition ret {S A} (a : A) : M S A := fun s => (Returned a, s).

Definition raise {S A} (e : exn) : M S A := fun s => (Raised e, s).

Definition bind {S A B} (m : M S A) (k : A -> M S B) : M S B :=
  fun s =>
    match m s with
    | (Returned a, s') => k a s'
    | (Raised e, s') => (Raised e, s')
    end.

(** [try: body  except <handles>: handler] *)
Definition try_except {S A} (body : M S A) (handles : exn -> bool)
           (handler : M S A) : M S A :=
  fun s =>
    match body s with
    | (Returned a, s') => (Returned a, s')
    | (Raised e, s') => if handles e then handler s' else (Raised e, s')
    end.

Definition get {S} : M S S := fun s => (Returned s, s).
Definition modify {S} (f : S -> S) : M S unit := fun s => (Returned tt, f s).

Declare Scope py_scope.
Delimit Scope py_scope with py.
Notation "x <- m ;; k" := (bind m (fun x => k))
  (at level 61, m at next level, right associativity) : py_scope.
Notation "m ;; k" := (bind m (fun _ => k))
  (at level 61, right associativity) : py_scope.

(** [except Exception] and the bare [except:] catch every exception of
    [exn]; [except serial.SerialException] only its own. *)
Definition any_exception (_ : exn) : bool := true.
Definition only_SerialException (e : exn) : bool :=
  match e with SerialException => true | _ => false end.

Definition inspect {A} (a : A) : {b : A | a = b} := exist _ a eq_refl.

(** A [while] loop: the body answers whether to go round again ([true]) or
    to leave the loop ([false], a [break] or a false loop test).  The loop
    terminates because each further round lowers [measure]. *)
Section While.
Context {S : Type} (measure : S -> nat) (body : M S bool).
Hypothesis body_decreases :
  forall s s', body s = (Returned true, s') -> (measure s' < measure s)%nat.

Equations while (s : S) : outcome unit * S by wf (measure s) lt :=
  while s with inspect (body s) := {
    | exist _ (Returned true, s') _ => while s'
    | exist _ (Returned false, s') _ => (Returned tt, s')
    | exist _ (Raised e, s') _ => (Raised e, s') }.

Lemma while_step (s : S) :
  while s = match body s with
            | (Returned true, s') => while s'
            | (Returned false, s') => (Returned tt, s')
            | (Raised e, s') => (Raised e, s')
            end.
Proof.
  rewrite while_equation_1. unfold while_unfold_clause_1, inspect.
  destruct (body s) as [[[|]|e] s']; reflexivity.
Qed.

(** What every round keeps, the loop keeps. *)
Lemma while_invariant (P : S -> Prop) :
  (forall s r s', P s -> body s = (r, s') -> P s') ->
  forall s r s', P s -> while s = (r, s') -> P s'.
Proof.
  intros step s. remember (measure s) as n eqn:Hn. revert s Hn.
  induction n as [n IH] using lt_wf_ind. intros s Hn r s' HP.
  rewrite while_step. destruct (body s) as [[[|]|e] s1] eqn:Hb; intros H.
  - eapply (IH (measure s1)); [| reflexivity | | exact H].
    + subst n. eapply body_decreases; eassumption.
    + eapply step; eassumption.
  - inversion H; subst. eapply step; eassumption.
  - inversion H; subst. eapply step; eassumption.
Qed.
End While.

(** ** The host and the serial port

    The driver talks to a pyserial port and to three collaborators of the
    host process: the reactor (timers and the monotonic clock), the gcode
    console ([respond_info]) and the printer ([invoke_shutdown]).  What the
    port does is scripted in the [World]; what the driver does to the
    outside is recorded in [events], oldest first. *)

(** The three periodic callbacks the driver registers. *)
Inductive callback : Type :=
| cb_sample_PLA_SEAR
| cb_run_Read
| cb_run_Write.

(** A timer handle, as [register_timer] hands it back. *)
Definition handle := nat.

(** What a callback gives back to the reactor: the time of its next
    invocation, or [reactor.NEVER].  Times are rationals (the rounding of
    the floating-point sum [eventtime + SERIAL_TIMER] is left out) and
    [NEVER] is kept apart from every time. *)
Inductive waketime : Type :=
| At (t : Q)
| NEVER.

Definition NOW : waketime := At 0.

(** An open [serial.Serial] object. *)
Record Serial : Type := mkSerial {
  port : str;
  baudrate : Z;
  timeout : Z
}.

(** What the port answers the next time [_run_Read] looks at it. *)
Inductive port_step : Type :=
| in_waiting_raises
| in_waiting_zero
| read_raises
| read_gives (raw : bytes).

Inductive event : Type :=
| Open (port : str) (baud : Z)
| Close
| Write (data : str)
| Info (msg : str)
| Shutdown (msg : str).

(** [port_opens], [port_closes] and [port_writes] say whether each further
    call of [serial.Serial(...)], [close()] and [write()] goes through
    ([true]) or raises; with none left, opening fails (the device is
    absent) and closing and writing go through.  [port_reads] is what the
    port answers to the further polls; with none left nothing is waiting. *)
Record World : Type := mkWorld {
  port_opens : list bool;
  port_closes : list bool;
  port_reads : list port_step;
  port_writes : list bool;
  monotonic_clock : Q;
  timers : list (handle * callback);
  next_handle : handle;
  ready_gcode_handlers : list str;
  events : list event
}.

Definition set_port_opens (v : list bool) (w : World) : World :=
  mkWorld v (port_closes w) (port_reads w) (port_writes w) (monotonic_clock w)
    (timers w) (next_handle w) (ready_gcode_handlers w) (events w).
Definition set_port_closes (v : list bool) (w : World) : World :=
  mkWorld (port_opens w) v (port_reads w) (port_writes w) (monotonic_clock w)
    (timers w) (next_handle w) (ready_gcode_handlers w) (events w).
Definition set_port_reads (v : list port_step) (w : World) : World :=
  mkWorld (port_opens w) (port_closes w) v (port_writes w) (monotonic_clock w)
    (timers w) (next_handle w) (ready_gcode_handlers w) (events w).
Definition set_port_writes (v : list bool) (w : World) : World :=
  mkWorld (port_opens w) (port_closes w) (port_reads w) v (monotonic_clock w)
    (timers w) (next_handle w) (ready_gcode_handlers w) (events w).
Definition set_timers (v : list (handle * callback)) (w : World) : World :=
  mkWorld (port_opens w) (port_closes w) (port_reads w) (port_writes w)
    (monotonic_clock w) v (next_handle w) (ready_gcode_handlers w) (events w).
Definition set_next_handle (v : handle) (w : World) : World :=
  mkWorld (port_opens w) (port_closes w) (port_reads w) (port_writes w)
    (monotonic_clock w) (timers w) v (ready_gcode_handlers w) (events w).
Definition set_ready_gcode_handlers (v : list str) (w : World) : World :=
  mkWorld (port_opens w) (port_closes w) (port_reads w) (port_writes w)
    (monotonic_clock w) (timers w) (next_handle w) v (events w).
Definition set_events (v : list event) (w : World) : World :=
  mkWorld (port_opens w) (port_closes w) (port_reads w) (port_writes w)
    (monotonic_clock w) (timers w) (next_handle w) (ready_gcode_handlers w) v.

(** The attributes of a [PLA_SensorArray] the methods below read or
    write. *)
Record PLA_SensorArray : Type := mkPLA_SensorArray {
  serial : option Serial;
  read_timer : option handle;
  temp : Q;
  target_temp : Q;
  read_buffer : str;
  read_queue : list str;
  write_timer : option handle;
  write_queue : list str;
  _failed_connection_attempts : Z;
  _first_connect : bool;
  last_debug_timestamp : Q;
  last_debug_message : str;
  serial_port : str;
  sample_timer : option handle
}.

Definition set_serial (v : option Serial)
           (d : PLA_SensorArray) : PLA_SensorArray :=
  mkPLA_SensorArray v (read_timer d) (temp d) (target_temp d) (read_buffer d)
    (read_queue d) (write_timer d) (write_queue d)
    (_failed_connection_attempts d) (_first_connect d)
    (last_debug_timestamp d) (last_debug_message d) (serial_port d)
    (sample_timer d).
Definition set_read_timer (v : option handle)
           (d : PLA_SensorArray) : PLA_SensorArray :=
  mkPLA_SensorArray (serial d) v (temp d) (target_temp d) (read_buffer d)
    (read_queue d) (write_timer d) (write_queue d)
    (_failed_connection_attempts d) (_first_connect d)
    (last_debug_timestamp d) (last_debug_message d) (serial_port d)
    (sample_timer d).
Definition set_temp (v : Q) (d : PLA_SensorArray) : PLA_SensorArray :=
  mkPLA_SensorArray (serial d) (read_timer d) v (target_temp d)
    (read_buffer d) (read_queue d) (write_timer d) (write_queue d)
    (_failed_connection_attempts d) (_first_connect d)
    (last_debug_timestamp d) (last_debug_message d) (serial_port d)
    (sample_timer d).
Definition set_read_buffer (v : str) (d : PLA_SensorArray) : PLA_SensorArray :=
  mkPLA_SensorArray (serial d) (read_timer d) (temp d) (target_temp d) v
    (read_queue d) (write_timer d) (write_queue d)
    (_failed_connection_attempts d) (_first_connect d)
    (last_debug_timestamp d) (last_debug_message d) (serial_port d)
    (sample_timer d).
Definition set_read_queue (v : list str)
           (d : PLA_SensorArray) : PLA_SensorArray :=
  mkPLA_SensorArray (serial d) (read_timer d) (temp d) (target_temp d)
    (read_buffer d) v (write_timer d) (write_queue d)
    (_failed_connection_attempts d) (_first_connect d)
    (last_debug_timestamp d) (last_debug_message d) (serial_port d)
    (sample_timer d).
Definition set_write_timer (v : option handle)
           (d : PLA_SensorArray) : PLA_SensorArray :=
  mkPLA_SensorArray (serial d) (read_timer d) (temp d) (target_temp d)
    (read_buffer d) (read_queue d) v (write_queue d)
    (_failed_connection_attempts d) (_first_connect d)
    (last_debug_timestamp d) (last_debug_message d) (serial_port d)
    (sample_timer d).
Definition set_write_queue (v : list str)
           (d : PLA_SensorArray) : PLA_SensorArray :=
  mkPLA_SensorArray (serial d) (read_timer d) (temp d) (target_temp d)
    (read_buffer d) (read_queue d) (write_timer d) v
    (_failed_connection_attempts d) (_first_connect d)
    (last_debug_timestamp d) (last_debug_message d) (serial_port d)
    (sample_timer d).
Definition set_failed_connection_attempts (v : Z)
           (d : PLA_SensorArray) : PLA_SensorArray :=
  mkPLA_SensorArray (serial d) (read_timer d) (temp d) (target_temp d)
    (read_buffer d) (read_queue d) (write_timer d) (write_queue d) v
    (_first_connect d) (last_debug_timestamp d) (last_debug_message d)
    (serial_port d) (sample_timer d).
Definition set_sample_timer (v : option handle)
           (d : PLA_SensorArray) : PLA_SensorArray :=
  mkPLA_SensorArray (serial d) (read_timer d) (temp d) (target_temp d)
    (read_buffer d) (read_queue d) (write_timer d) (write_queue d)
    (_failed_connection_attempts d) (_first_connect d)
    (last_debug_timestamp d) (last_debug_message d) (serial_port d) v.
Definition set_last_debug_timestamp (v : Q)
           (d : PLA_SensorArray) : PLA_SensorArray :=
  mkPLA_SensorArray (serial d) (read_timer d) (temp d) (target_temp d)
    (read_buffer d) (read_queue d) (write_timer d) (write_queue d)
    (_failed_connection_attempts d) (_first_connect d) v
    (last_debug_message d) (serial_port d) (sample_timer d).

(** The driver object together with the world around it. *)
Record state : Type := mkState {
  host : World;
  self : PLA_SensorArray
}.

Definition Py := M state.

Definition on_host (f : World -> World) : Py unit :=
  modify (fun s => mkState (f (host s)) (self s)).
Definition on_self (f : PLA_SensorArray -> PLA_SensorArray) : Py unit :=
  modify (fun s => mkState (host s) (f (self s))).

Definition emit (e : event) : Py unit :=
  on_host (fun w => set_events (events w ++ [e]) w).

Local Open Scope py_scope.

(** *** The reactor *)

(** Modelled from the spec: the host scheduler (the reactor), which is not
    among the sources.  The driver registers periodic callbacks with it
    and gets a handle for each; a callback is given the current time and
    answers the time of its next invocation or the never-again sentinel;
    unregistering removes the registration, and fails on something that is
    not a registered handle. *)
Definition register_timer (cb : callback) (_ : waketime) : Py handle :=
  s <- get;;
  let h := next_handle (host s) in
  on_host (fun w => set_next_handle (S h) (set_timers (timers w ++ [(h, cb)]) w));;
  ret h.

(** Whether the reactor holds a registration under handle [h]. *)
Definition registered (h : handle) (w : World) : bool :=
  existsb (fun t => Nat.eqb (fst t) h) (timers w).

Fixpoint remove_timer (h : handle) (ts : list (handle * callback))
  : list (handle * callback) :=
  match ts with
  | [] => []
  | t :: ts' => if Nat.eqb (fst t) h then ts' else t :: remove_timer h ts'
  end.

(** Modelled from the spec: [reactor.unregister_timer], not among the
    sources.  It removes the registration of the handle; given [None], or
    a handle that is not registered, it raises (the driver swallows
    that). *)
Definition unregister_timer (timer : option handle) : Py unit :=
  match timer with
  | None => raise AttributeError
  | Some h =>
    s <- get;;
    if registered h (host s)
    then on_host (fun w => set_timers (remove_timer h (timers w)) w)
    else raise ValueError
  end.

(** Modelled from the spec: [reactor.monotonic], not among the sources;
    the scheduler supplies the monotonic time. *)
Definition monotonic : Py Q := s <- get;; ret (monotonic_clock (host s)).

(** *** The printer and the gcode console *)

(** Modelled from the spec: [printer.invoke_shutdown], not among the
    sources; it hands the host a fatal-shutdown request with a reason. *)
Definition invoke_shutdown (msg : str) : Py unit := emit (Shutdown msg).

(** Modelled from the spec: [gcode.respond_info], not among the sources;
    it passes an informational message to the console and never fails. *)
Definition respond_info (msg : str) : Py unit := emit (Info msg).

(** *** The serial port *)

(** [serial.Serial(port, baud, timeout=...)] *)
Definition serial_Serial (port : str) (baud tmo : Z) : Py Serial :=
  s <- get;;
  match port_opens (host s) with
  | true :: rest =>
    on_host (set_port_opens rest);; emit (Open port baud);;
    ret (mkSerial port baud tmo)
  | false :: rest => on_host (set_port_opens rest);; raise SerialException
  | [] => raise SerialException
  end.

(** [ser.close()]; on [None] the attribute lookup raises. *)
Definition close (ser : option Serial) : Py unit :=
  match ser with
  | None => raise AttributeError
  | Some _ =>
    s <- get;;
    match port_closes (host s) with
    | false :: rest => on_host (set_port_closes rest);; raise SerialException
    | true :: rest => on_host (set_port_closes rest);; emit Close
    | [] => emit Close
    end
  end.

(** [ser.write(encoded)] for [encoded] the encoding of the text [data];
    [Write data] records the text whose encoding went out. *)
Definition write (ser : option Serial) (data : str) : Py unit :=
  match ser with
  | None => raise AttributeError
  | Some _ =>
    s <- get;;
    match port_writes (host s) with
    | false :: rest => on_host (set_port_writes rest);; raise SerialException
    | true :: rest => on_host (set_port_writes rest);; emit (Write data)
    | [] => emit (Write data)
    end
  end.

(** The body of the [try] of [_run_Read]:
    [raw_bytes = ""; if ser.in_waiting > 0: raw_bytes = ser.read()].
    The empty [raw_bytes] stands for both [""] and [b""]: only its length
    is looked at.  [read()] may return any number of bytes here (with
    pyserial's default size it returns at most one). *)
Definition in_waiting_then_read (ser : option Serial) : Py bytes :=
  match ser with
  | None => raise AttributeError
  | Some _ =>
    s <- get;;
    match port_reads (host s) with
    | [] => ret []
    | in_waiting_zero :: rest => on_host (set_port_reads rest);; ret []
    | read_gives raw :: rest => on_host (set_port_reads rest);; ret raw
    | in_waiting_raises :: rest
    | read_raises :: rest => on_host (set_port_reads rest);; raise SerialException
    end
  end.

(** ** The driver *)

(** determines the timing for all interactions with SensorArray *)
Definition SERIAL_TIMER : Q := 1 # 10.
Definition BAUD : Z := 115200.

Definition len {A} (l : list A) : Z := Z.of_nat (length l).

(** The object as [__init__] finds it: none of its attributes set yet. *)
Definition uninitialised : PLA_SensorArray :=
  mkPLA_SensorArray None None 0 0 [] [] None [] 0 true 0 [] [] None.

(** Modelled from the spec: [gcode.register_command], not among the
    sources; it adds an operator command to those the console knows. *)
Definition register_command (cmd : str) : Py unit :=
  on_host (fun w => set_ready_gcode_handlers (ready_gcode_handlers w ++ [cmd]) w).

(** [__init__], as far as the attributes above go: the object is created
    disconnected, with empty buffers and an empty last message, the
    calibration command is registered unless it is there already, and the
    poll timer is registered. *)
Definition __init__ (config_serial : str) : Py unit :=
  now <- monotonic;;
  on_self (fun _ => mkPLA_SensorArray None None 0 0 [] [] None [] 0 true
                                      now [] config_serial None);;
  s <- get;;
  (if existsb (str_eqb (lit "SEAR_START_CALIBRATION_PROCESS"))
              (ready_gcode_handlers (host s))
   then ret tt
   else register_command (lit "SEAR_START_CALIBRATION_PROCESS"));;
  h <- register_timer cb_sample_PLA_SEAR NOW;;
  on_self (set_sample_timer (Some h)).

Definition disconnect (disconnect_message : str) : Py unit :=
  on_self (fun d => set_write_queue (write_queue d ++ [disconnect_message]) d);;
  try_except (s <- get;; close (serial (self s)))
             any_exception (ret tt);;
  on_self (set_serial None);;
  try_except (s <- get;; unregister_timer (read_timer (self s)))
             any_exception (ret tt);;
  on_self (set_read_timer None);;
  try_except (s <- get;; unregister_timer (write_timer (self s)))
             any_exception (ret tt);;
  on_self (set_write_timer None).

(** [get_status(self, _)]: the dictionary it returns, as its two values
    in the order of the keys ["last_debug_timestamp"] and
    ["last_debug_message"]. *)
Definition get_status (d : PLA_SensorArray) (_ : Q) : Q * str :=
  (last_debug_timestamp d, last_debug_message d).

Definition _init_PLA_SEAR : Py unit :=
  s <- get;;
  opened <- try_except
      (ser <- serial_Serial (serial_port (self s)) BAUD 1;;
       on_self (set_serial (Some ser));;
       on_self (set_failed_connection_attempts 0);;
       ret true)
      any_exception
      (on_self (fun d => set_failed_connection_attempts
                           (_failed_connection_attempts d + 1) d);;
       ret false);;
  if opened : bool then
    on_self (set_write_queue []);;
    on_self (set_read_queue []);;
    rt <- register_timer cb_run_Read NOW;;
    on_self (set_read_timer (Some rt));;
    wt <- register_timer cb_run_Write NOW;;
    on_self (set_write_timer (Some wt))
  else ret tt.

Definition _handle_connect : Py unit :=
  s <- get;;
  match serial (self s) with
  | None => _init_PLA_SEAR
  | Some _ => ret tt
  end.

Definition _handle_disconnect : Py unit := disconnect (lit "d").

Definition _handle_shutdown : Py unit := _handle_disconnect.

Definition _sample_PLA_SEAR (eventtime : Q) : Py waketime :=
  s <- get;;
  if _failed_connection_attempts (self s) <? 5 then
    try_except
      (match serial (self s) with
       | None => _handle_connect
       | Some _ =>
         on_self (fun d => set_write_queue (write_queue d ++ [lit "read"]) d)
       end)
      only_SerialException
      (on_self (set_temp 0));;
    current_time <- monotonic;;
    ret (At (eventtime + SERIAL_TIMER))
  else
    invoke_shutdown
      (lit "Connection to SensorArray lost and could not be reestablished!");;
    ret NEVER.

(** *** The line framer (the inner loop of [_run_Read]) *)

Definition read_queue_append (line : str) (s : state) : state :=
  mkState (host s) (set_read_queue (read_queue (self s) ++ [line]) (self s)).

(** One round of [while True: i = text_buffer.find("\r\n") ...], over the
    local [text_buffer] and the object. *)
Definition framer_round : M (str * state) bool :=
  fun '(text_buffer, s) =>
    let i := find text_buffer CRLF in
    if 0 <=? i then
      let line := slice_to text_buffer (i + 1) in
      (Returned true,
       (slice_from text_buffer (i + 1), read_queue_append (strip line) s))
    else (Returned false, (text_buffer, s)).

Definition text_left (ls : str * state) : nat := length (fst ls).

Lemma find_nil (sub : str) : sub <> [] -> find [] sub = -1.
Proof. destruct sub; [congruence | reflexivity]. Qed.

Lemma find_cons (c : Z) (s sub : str) :
  find (c :: s) sub =
  if startswith (c :: s) sub then 0
  else if find s sub <? 0 then -1 else find s sub + 1.
Proof. reflexivity. Qed.

Lemma find_lower_bound (s sub : str) : -1 <= find s sub.
Proof.
  induction s as [|c s IH].
  - destruct sub; simpl; lia.
  - rewrite find_cons. destruct (startswith (c :: s) sub); [lia|].
    destruct (find s sub <? 0) eqn:E; [lia|].
    apply Z.ltb_ge in E. lia.
Qed.

Lemma framer_round_decreases (ls ls' : str * state) :
  framer_round ls = (Returned true, ls') -> (text_left ls' < text_left ls)%nat.
Proof.
  destruct ls as [text_buffer s]. unfold framer_round, text_left.
  destruct (0 <=? find text_buffer CRLF) eqn:E; [|discriminate].
  intros H. inversion H; subst; clear H. simpl.
  apply Z.leb_le in E. unfold slice_from.
  destruct text_buffer as [|c t].
  - rewrite find_nil in E by discriminate. lia.
  - rewrite length_skipn. simpl length. lia.
Qed.

(** Runs code that has a local variable next to the object, and gives the
    local's final value. *)
Definition with_local {S L A} (l : L) (m : M (L * S) A) : M S L :=
  fun s =>
    match m (l, s) with
    | (Returned _, (l', s')) => (Returned l', s')
    | (Raised e, (_, s')) => (Raised e, s')
    end.

Definition framer_loop : M (str * state) unit :=
  while text_left framer_round framer_round_decreases.

(** Lines 203-214: [if len(raw_bytes): ...]. *)
Definition line_framer (raw_bytes : bytes) : Py unit :=
  if 0 <? len raw_bytes then
    s <- get;;
    match decode raw_bytes with
    | None => raise UnicodeDecodeError
    | Some decoded =>
      text_buffer <- with_local (read_buffer (self s) ++ decoded) framer_loop;;
      on_self (set_read_buffer text_buffer)
    end
  else ret tt.

(** *** The line consumer *)

Definition _process_read_queue_round : Py bool :=
  s <- get;;
  match read_queue (self s) with
  | [] => ret false
  | text_line :: rest =>
    on_self (set_read_queue rest);;
    let tmp := rstrip text_line [NUL] in
    respond_info (lit "Output from SensorArray: " ++ tmp);;
    ret true
  end.

Definition lines_queued (s : state) : nat := length (read_queue (self s)).

Lemma _process_read_queue_round_decreases (s s' : state) :
  _process_read_queue_round s = (Returned true, s') ->
  (lines_queued s' < lines_queued s)%nat.
Proof.
  unfold _process_read_queue_round, lines_queued, bind, get.
  destruct s as [w d]; simpl.
  destruct (read_queue d) as [|l q] eqn:E; simpl; intros H; inversion H; subst.
  simpl. lia.
Qed.

Definition _process_read_queue : Py unit :=
  while lines_queued _process_read_queue_round
        _process_read_queue_round_decreases.

(** *** The read pump *)

(** One round of the outer [while True] of [_run_Read]; [false] is one of
    its two [break]s. *)
Definition _run_Read_round : Py bool :=
  s <- get;;
  polled <- try_except
      (raw_bytes <- in_waiting_then_read (serial (self s));;
       ret (Some raw_bytes))
      any_exception
      (disconnect (lit "d");; ret None);;
  match polled with
  | None => ret false
  | Some raw_bytes =>
    line_framer raw_bytes;;
    if 1000 <? len raw_bytes then
      invoke_shutdown (lit "Buffer to large.");;
      ret true
    else ret false
  end.

Lemma line_framer_host (raw_bytes : bytes) (s s' : state) (r : outcome unit) :
  line_framer raw_bytes s = (r, s') -> host s' = host s.
Proof.
  unfold line_framer. destruct (0 <? len raw_bytes).
  2:{ intros H; inversion H; reflexivity. }
  unfold bind, get. destruct (decode raw_bytes) as [decoded|].
  2:{ intros H; inversion H; reflexivity. }
  unfold with_local.
  unfold framer_loop.
  destruct (while text_left framer_round framer_round_decreases
              (read_buffer (self s) ++ decoded, s)) as [o [tb s1]] eqn:W.
  apply (while_invariant text_left framer_round framer_round_decreases
           (fun ls => host (snd ls) = host s)) in W; simpl in *.
  - destruct o; intros H; inversion H; subst; simpl; assumption.
  - clear. intros [tb s0] r [tb' s'] HP. unfold framer_round. simpl in *.
    destruct (0 <=? find tb CRLF); intros H; inversion H; subst; simpl; assumption.
  - reflexivity.
Qed.

Definition polls_left (s : state) : nat := length (port_reads (host s)).

Lemma disconnect_returns (msg : str) (s : state) :
  exists s', disconnect msg s = (Returned tt, s').
Proof.
  unfold disconnect, bind, try_except, on_self, modify, get, any_exception, ret.
  simpl.
  destruct (close _ _) as [[[]|e1] s1]; simpl;
    destruct (unregister_timer _ _) as [[[]|e2] s2]; simpl;
      destruct (unregister_timer _ _) as [[[]|e3] s3]; simpl; eauto.
Qed.


(** Unfolds the plumbing of [Py] code, leaving the driver's own methods. *)
Ltac py :=
  cbv [bind ret raise get modify on_host on_self emit try_except
       any_exception only_SerialException invoke_shutdown respond_info
       monotonic].

Lemma _run_Read_round_decreases (s s' : state) :
  _run_Read_round s = (Returned true, s') -> (polls_left s' < polls_left s)%nat.
Proof.
  unfold _run_Read_round, in_waiting_then_read, polls_left. py.
  destruct s as [w d]; simpl.
  destruct (serial d) as [ser|]; simpl.
  2:{ destruct (disconnect_returns (lit "d") (mkState w d)) as [s1 ->].
      discriminate. }
  destruct (port_reads w) as [|[| | |raw] rest] eqn:R; simpl.
  all: try (match goal with |- context [disconnect ?m ?st] =>
           destruct (disconnect_returns m st) as [s1 ->] end; discriminate).
  all: try discriminate.
  destruct (line_framer raw _) as [[[]|e] s1] eqn:F; [|discriminate].
  apply line_framer_host in F. simpl in F.
  destruct (1000 <? len raw); intros H; inversion H; subst; simpl.
  rewrite F. simpl. lia.
Qed.

Definition _run_Read_loop : Py unit :=
  while polls_left _run_Read_round _run_Read_round_decreases.

Definition _run_Read (eventtime : Q) : Py waketime :=
  _run_Read_loop;;
  now <- monotonic;;
  on_self (set_last_debug_timestamp now);;
  _process_read_queue;;
  ret (At (eventtime + SERIAL_TIMER)).

(** *** The write pump *)

(** [text_line.encode()], as an expression of the code. *)
Definition encoded (text_line : str) : Py bytes :=
  match encode text_line with
  | Some raw => ret raw
  | None => raise UnicodeEncodeError
  end.

(** One round of [while not len(self.write_queue) == 0]; [false] is the
    failed loop test or the [break].  The entry is encoded twice: first in
    the log call of line 248, which no [try] encloses, then for the write
    inside the [try]. *)
Definition _run_Write_round : Py bool :=
  s <- get;;
  match write_queue (self s) with
  | [] => ret false
  | text_line :: rest =>
    on_self (set_write_queue rest);;
    if 0 <? len text_line then
      encoded text_line;;
      try_except
        (encoded text_line;; write (serial (self s)) text_line;; ret true)
        any_exception
        (disconnect (lit "d");; ret false)
    else ret true
  end.

Definition writes_queued (s : state) : nat := length (write_queue (self s)).

Lemma write_self (ser : option Serial) (data : str) (s s' : state)
      (r : outcome unit) :
  write ser data s = (r, s') -> self s' = self s.
Proof.
  unfold write. py. destruct ser; [|intros H; inversion H; reflexivity].
  destruct (port_writes (host s)) as [|[|] rest]; simpl;
    intros H; inversion H; reflexivity.
Qed.

Lemma _run_Write_round_decreases (s s' : state) :
  _run_Write_round s = (Returned true, s') ->
  (writes_queued s' < writes_queued s)%nat.
Proof.
  unfold _run_Write_round, writes_queued. py. destruct s as [w d]; simpl.
  destruct (write_queue d) as [|text_line rest] eqn:Q; [discriminate|].
  destruct (0 <? len text_line).
  - unfold encoded. destruct (encode text_line); [|discriminate]. py.
    destruct (write _ _ _) as [[[]|e] s1] eqn:W.
    + apply write_self in W. intros H; inversion H; subst.
      rewrite W. simpl. lia.
    + match goal with |- context [disconnect ?m ?st] =>
        destruct (disconnect_returns m st) as [s2 ->] end. discriminate.
  - intros H; inversion H; subst. simpl. lia.
Qed.

Definition _run_Write_loop : Py unit :=
  while writes_queued _run_Write_round _run_Write_round_decreases.

Definition _run_Write (eventtime : Q) : Py waketime :=
  _run_Write_loop;;
  ret (At (eventtime + SERIAL_TIMER)).

(** ** Observations and test drivers *)

(** The texts written to the port, oldest first. *)
Definition written (w : World) : list str :=
  flat_map (fun e => match e with Write data => [data] | _ => [] end)
           (events w).

(** The reasons of the shutdown requests made, oldest first. *)
Definition shutdowns (w : World) : list str :=
  flat_map (fun e => match e with Shutdown msg => [msg] | _ => [] end)
           (events w).

(** The messages sent to the console, oldest first. *)
Definition infos (w : World) : list str :=
  flat_map (fun e => match e with Info msg => [msg] | _ => [] end)
           (events w).

(** The ports the driver opened, oldest first. *)
Definition opened (w : World) : list str :=
  flat_map (fun e => match e with Open p _ => [p] | _ => [] end) (events w).

(** [sub in s] *)
Definition contains (s sub : str) : bool := 0 <=? find s sub.

(** Feeds the chunks to the line framer, one after the other. *)
Fixpoint feed (chunks : list bytes) : Py unit :=
  match chunks with
  | [] => ret tt
  | raw_bytes :: more => line_framer raw_bytes;; feed more
  end.

(** Invokes the poll callback at each of the given times. *)
Fixpoint poll_ticks (eventtimes : list Q) : Py (list waketime) :=
  match eventtimes with
  | [] => ret []
  | eventtime :: later =>
    r <- _sample_PLA_SEAR eventtime;;
    rs <- poll_ticks later;;
    ret (r :: rs)
  end.

(** A world where nothing is scripted, at time [0]. *)
Definition quiet : World := mkWorld [] [] [] [] 0 [] 0%nat [] [].

(** The driver right after [__init__] in world [w]. *)
Definition fresh (config_serial : str) (w : World) : state :=
  snd (__init__ config_serial (mkState w uninitialised)).

(** [b"\r\n"] *)
Definition bCRLF : bytes := [Byte.x0d; Byte.x0a].

(** * Properties *)

(** ** The line framer *)

Lemma startswith_cons (s : str) (c : Z) (sub : str) :
  startswith s (c :: sub) = true -> exists s', s = c :: s'.
Proof.
  destruct s as [|d s']; simpl; [discriminate|].
  intros H. apply andb_true_iff in H. destruct H as [H _].
  apply Z.eqb_eq in H. subst. eauto.
Qed.

Lemma find_found (s sub : str) :
  0 <= find s sub -> startswith (skipn (Z.to_nat (find s sub)) s) sub = true.
Proof.
  induction s as [|c s IH].
  - destruct sub; simpl; [reflexivity | lia].
  - rewrite find_cons. destruct (startswith (c :: s) sub) eqn:E.
    + intros _. exact E.
    + destruct (find s sub <? 0) eqn:F; [lia|]. apply Z.ltb_ge in F. intros _.
      replace (Z.to_nat (find s sub + 1)) with (S (Z.to_nat (find s sub))) by lia.
      simpl. apply IH. exact F.
Qed.

Lemma startswith_app (s sub b : str) :
  startswith s sub = true -> startswith (s ++ b) sub = true.
Proof.
  revert sub. induction s as [|d s IH]; intros [|c sub]; simpl; auto.
  - intros _. destruct b; reflexivity.
  - intros H. discriminate H.
  - intros H. apply andb_true_iff in H. destruct H as [H1 H2].
    rewrite H1. simpl. apply IH. exact H2.
Qed.

Lemma startswith_long (s sub b : str) :
  startswith s sub = false -> (length sub <= length s)%nat ->
  startswith (s ++ b) sub = false.
Proof.
  revert sub. induction s as [|d s IH]; intros [|c sub]; simpl; auto;
    try (intros H; discriminate H).
  - intros _ L. lia.
  - intros H L. destruct (c =? d); simpl in *; [|reflexivity].
    apply IH; [exact H | lia].
Qed.

Lemma find_fits (s sub : str) :
  0 <= find s sub -> (length sub <= length s)%nat.
Proof.
  induction s as [|c s IH].
  - destruct sub; simpl; [lia|]. intros H. lia.
  - rewrite find_cons. destruct (startswith (c :: s) sub) eqn:E.
    + intros _. clear IH. revert E. generalize (c :: s). intros l.
      revert l. induction sub as [|x sub IH]; intros l E; simpl; [lia|].
      destruct l as [|d l]; simpl in E; [discriminate|].
      apply andb_true_iff in E. destruct E as [_ E]. apply IH in E.
      simpl. lia.
    + destruct (find s sub <? 0) eqn:F; [lia|]. apply Z.ltb_ge in F.
      intros _. apply IH in F. simpl. lia.
Qed.

(** What is found in a text is found at the same place when more text
    follows. *)
Lemma find_app_found (a b sub : str) :
  0 <= find a sub -> find (a ++ b) sub = find a sub.
Proof.
  induction a as [|c a IH].
  - destruct sub; simpl; [|lia]. intros _. destruct b; reflexivity.
  - simpl app. rewrite !find_cons. destruct (startswith (c :: a) sub) eqn:E.
    + intros _. change (c :: a ++ b) with ((c :: a) ++ b).
      rewrite (startswith_app _ _ b E). reflexivity.
    + destruct (find a sub <? 0) eqn:F; [lia|]. apply Z.ltb_ge in F.
      intros _. change (c :: a ++ b) with ((c :: a) ++ b).
      rewrite (startswith_long _ _ b E).
      * rewrite (IH F). apply Z.ltb_ge in F. rewrite F. reflexivity.
      * apply find_fits in F. simpl. lia.
Qed.

(** A piece the framer cuts off ends with the carriage return of the
    terminator it found. *)
Definition ends_with_CR (segment : str) : Prop :=
  exists line, segment = line ++ [CR].

Lemma cut_at_terminator (text_buffer : str) :
  0 <= find text_buffer CRLF ->
  ends_with_CR (slice_to text_buffer (find text_buffer CRLF + 1)).
Proof.
  intros H. pose proof (find_found text_buffer CRLF H) as F.
  apply startswith_cons in F. destruct F as [t F].
  unfold slice_to, ends_with_CR.
  set (i := Z.to_nat (find text_buffer CRLF)) in *.
  replace (Z.to_nat (find text_buffer CRLF + 1)) with (S i) by lia.
  exists (firstn i text_buffer).
  rewrite <- (firstn_skipn i text_buffer) at 1. rewrite F.
  assert (L : length (firstn i text_buffer) = i).
  { apply firstn_length_le.
    assert (length (skipn i text_buffer) <> 0)%nat by (rewrite F; discriminate).
    rewrite length_skipn in *. lia. }
  rewrite firstn_app, L. replace (S i - i)%nat with 1%nat by lia.
  rewrite firstn_all2 by lia. reflexivity.
Qed.

Definition framed (segments : list str) (s : state) : state :=
  mkState (host s)
          (set_read_queue (read_queue (self s) ++ map strip segments) (self s)).

Lemma framed_nil (s : state) : framed [] s = s.
Proof.
  destruct s as [w d]. destruct d. unfold framed, set_read_queue. simpl.
  rewrite app_nil_r. reflexivity.
Qed.

Lemma framed_cons (segment : str) (segments : list str) (s : state) :
  framed segments (read_queue_append (strip segment) s)
  = framed (segment :: segments) s.
Proof.
  destruct s as [w d]. unfold framed, read_queue_append, set_read_queue. simpl.
  rewrite <- app_assoc. reflexivity.
Qed.

Lemma framer_loop_spec (text_buffer : str) (s : state) :
  exists segments remainder,
    framer_loop (text_buffer, s) = (Returned tt, (remainder, framed segments s))
    /\ concat segments ++ remainder = text_buffer
    /\ find remainder CRLF = -1
    /\ Forall ends_with_CR segments.
Proof.
  remember (length text_buffer) as n eqn:Hn. revert text_buffer s Hn.
  induction n as [n IH] using lt_wf_ind. intros text_buffer s Hn.
  unfold framer_loop. rewrite while_step.
  unfold framer_round at 1.
  destruct (0 <=? find text_buffer CRLF) eqn:E.
  - apply Z.leb_le in E.
    assert (D : (text_left (slice_from text_buffer (find text_buffer CRLF + 1),
                            read_queue_append
                              (strip (slice_to text_buffer (find text_buffer CRLF + 1))) s)
                 < n)%nat).
    { subst n. apply (framer_round_decreases (text_buffer, s)).
      unfold framer_round. apply Z.leb_le in E. rewrite E. reflexivity. }
    destruct (IH _ D (slice_from text_buffer (find text_buffer CRLF + 1))
                 (read_queue_append
                    (strip (slice_to text_buffer (find text_buffer CRLF + 1))) s)
                 eq_refl)
      as (segments & remainder & Hrun & Hcat & Hfind & Hends).
    exists (slice_to text_buffer (find text_buffer CRLF + 1) :: segments), remainder.
    repeat split.
    + fold framer_loop. rewrite Hrun, framed_cons. reflexivity.
    + simpl. rewrite <- app_assoc, Hcat. apply firstn_skipn.
    + exact Hfind.
    + constructor; [apply cut_at_terminator; exact E | exact Hends].
  - exists [], text_buffer. rewrite framed_nil. repeat split.
    + apply Z.leb_gt in E. pose proof (find_lower_bound text_buffer CRLF). lia.
    + constructor.
Qed.

Definition buffered (remainder : str) (s : state) : state :=
  mkState (host s) (set_read_buffer remainder (self s)).

Lemma buffered_same (s : state) : buffered (read_buffer (self s)) s = s.
Proof. destruct s as [w d]. destruct d. reflexivity. Qed.

Lemma framed_buffered_framed (segs1 segs2 : list str) (r : str) (s : state) :
  framed segs2 (buffered r (framed segs1 s)) = buffered r (framed (segs1 ++ segs2) s).
Proof.
  destruct s as [w d]. unfold framed, buffered, set_read_queue, set_read_buffer.
  simpl. rewrite map_app, app_assoc. reflexivity.
Qed.

Lemma buffered_buffered (r1 r2 : str) (s : state) :
  buffered r2 (buffered r1 s) = buffered r2 s.
Proof. reflexivity. Qed.

Lemma decode_nil : decode [] = Some [].
Proof. reflexivity. Qed.

Lemma len_positive {A} (l : list A) : (0 <? len l) = false -> l = [].
Proof. destruct l; [reflexivity|]. unfold len. simpl. intros H. apply Z.ltb_ge in H. lia. Qed.

Lemma line_framer_spec (raw_bytes : bytes) (decoded : str) (s : state) :
  decode raw_bytes = Some decoded ->
  exists segments remainder,
    line_framer raw_bytes s
    = (Returned tt, buffered remainder (framed segments s))
    /\ concat segments ++ remainder = read_buffer (self s) ++ decoded
    /\ Forall ends_with_CR segments
    /\ (find (read_buffer (self s)) CRLF = -1 -> find remainder CRLF = -1).
Proof.
  intros D. unfold line_framer. destruct (0 <? len raw_bytes) eqn:L.
  - py. rewrite D. unfold with_local.
    destruct (framer_loop_spec (read_buffer (self s) ++ decoded) s)
      as (segments & remainder & Hrun & Hcat & Hfind & Hends).
    exists segments, remainder. rewrite Hrun. simpl. auto.
  - apply len_positive in L. subst raw_bytes. rewrite decode_nil in D.
    inversion D; subst. exists [], (read_buffer (self s)).
    rewrite framed_nil, buffered_same, app_nil_r. simpl. auto.
Qed.

Lemma feed_spec (chunks : list bytes) (texts : list str) (s : state) :
  Forall2 (fun raw_bytes text => decode raw_bytes = Some text) chunks texts ->
  exists segments remainder,
    feed chunks s = (Returned tt, buffered remainder (framed segments s))
    /\ concat segments ++ remainder = read_buffer (self s) ++ concat texts
    /\ Forall ends_with_CR segments
    /\ (find (read_buffer (self s)) CRLF = -1 -> find remainder CRLF = -1).
Proof.
  intros F. revert s. induction F as [|raw text chunks texts D F IH]; intros s.
  - exists [], (read_buffer (self s)). simpl.
    rewrite framed_nil, buffered_same, app_nil_r. auto.
  - destruct (line_framer_spec raw text s D)
      as (segs1 & r1 & Hrun1 & Hcat1 & Hends1 & Hfind1).
    destruct (IH (buffered r1 (framed segs1 s)))
      as (segs2 & r2 & Hrun2 & Hcat2 & Hends2 & Hfind2).
    exists (segs1 ++ segs2), r2. simpl feed. unfold bind. rewrite Hrun1, Hrun2.
    rewrite framed_buffered_framed, buffered_buffered. repeat split.
    + simpl in Hcat2. rewrite concat_app, <- app_assoc, Hcat2.
      simpl. rewrite !app_assoc. f_equal. exact Hcat1.
    + apply Forall_app; auto.
    + intros H. apply Hfind2. simpl. auto.
Qed.

(** The segments are cut as the loop cuts them, one after the other: each
    is [text_buffer[0:i+1]] for [text_buffer] the text that was left (the
    segment, the later segments and the remainder) and [i] the place of
    its first ["\r\n"].  So a segment ends with the carriage return of
    the first terminator of what was left, and the line feed of that
    terminator begins what follows the segment. *)
Fixpoint cut_at_terminators (segments : list str) (remainder : str) : Prop :=
  match segments with
  | [] => True
  | segment :: later =>
    let text_buffer := segment ++ concat later ++ remainder in
    0 <= find text_buffer CRLF
    /\ segment = slice_to text_buffer (find text_buffer CRLF + 1)
    /\ cut_at_terminators later remainder
  end.

(** A text has one cut only: the segments cut at the terminators and a
    remainder without terminator are determined by the text. *)
Lemma cuts_are_determined (segments segments' : list str)
      (remainder remainder' : str) :
  concat segments ++ remainder = concat segments' ++ remainder' ->
  cut_at_terminators segments remainder ->
  cut_at_terminators segments' remainder' ->
  find remainder CRLF = -1 ->
  find remainder' CRLF = -1 ->
  segments = segments' /\ remainder = remainder'.
Proof.
  revert segments'.
  induction segments as [|seg later IH]; intros [|seg' later'] E C C' N N';
    simpl in *.
  - auto.
  - destruct C' as (F & _). rewrite <- app_assoc in E. rewrite <- E in F. lia.
  - destruct C as (F & _). rewrite <- app_assoc in E. rewrite E in F. lia.
  - destruct C as (_ & S & C). destruct C' as (_ & S' & C').
    rewrite <- !app_assoc in E. rewrite E in S.
    assert (X : seg = seg') by congruence. subst seg'.
    apply app_inv_head in E.
    destruct (IH later' E C C' N N') as [-> ->]. auto.
Qed.

Lemma cut_at_terminators_app (segs1 segs2 : list str) (r1 r2 more : str) :
  cut_at_terminators segs1 r1 ->
  cut_at_terminators segs2 r2 ->
  concat segs2 ++ r2 = r1 ++ more ->
  cut_at_terminators (segs1 ++ segs2) r2.
Proof.
  intros C1 C2 E. induction segs1 as [|seg later IH]; [exact C2|].
  simpl in *. destruct C1 as (F & S & C1).
  rewrite concat_app, <- app_assoc, E.
  replace (seg ++ concat later ++ r1 ++ more)
    with ((seg ++ concat later ++ r1) ++ more)
    by (rewrite <- !app_assoc; reflexivity).
  rewrite (find_app_found _ more CRLF F).
  split; [exact F|]. split; [|apply IH; exact C1].
  unfold slice_to in *. rewrite firstn_app.
  pose proof (find_fits _ _ F) as L. simpl in L.
  pose proof (find_found _ _ F) as St.
  assert (Lt : (Z.to_nat (find (seg ++ concat later ++ r1) CRLF)
                < length (seg ++ concat later ++ r1))%nat).
  { destruct (skipn _ _) as [|c t] eqn:K in St; [discriminate|].
    apply (f_equal (@length Z)) in K. rewrite length_skipn in K. simpl in K.
    lia. }
  replace (Z.to_nat (find (seg ++ concat later ++ r1) CRLF + 1)
           - length (seg ++ concat later ++ r1))%nat with 0%nat by lia.
  simpl. rewrite app_nil_r. exact S.
Qed.

(** What the loop of the framer does to a text. *)
Lemma framer_loop_cuts (text_buffer : str) (s : state) :
  exists segments remainder,
    framer_loop (text_buffer, s) = (Returned tt, (remainder, framed segments s))
    /\ concat segments ++ remainder = text_buffer
    /\ find remainder CRLF = -1
    /\ Forall ends_with_CR segments
    /\ cut_at_terminators segments remainder.
Proof.
  remember (length text_buffer) as n eqn:Hn. revert text_buffer s Hn.
  induction n as [n IH] using lt_wf_ind. intros text_buffer s Hn.
  unfold framer_loop. rewrite while_step.
  unfold framer_round at 1.
  destruct (0 <=? find text_buffer CRLF) eqn:E.
  - apply Z.leb_le in E.
    assert (D : (text_left (slice_from text_buffer (find text_buffer CRLF + 1),
                            read_queue_append
                              (strip (slice_to text_buffer (find text_buffer CRLF + 1))) s)
                 < n)%nat).
    { subst n. apply (framer_round_decreases (text_buffer, s)).
      unfold framer_round. apply Z.leb_le in E. rewrite E. reflexivity. }
    destruct (IH _ D (slice_from text_buffer (find text_buffer CRLF + 1))
                 (read_queue_append
                    (strip (slice_to text_buffer (find text_buffer CRLF + 1))) s)
                 eq_refl)
      as (segments & remainder & Hrun & Hcat & Hfind & Hends & Hcut).
    exists (slice_to text_buffer (find text_buffer CRLF + 1) :: segments), remainder.
    assert (T : slice_to text_buffer (find text_buffer CRLF + 1)
                ++ concat segments ++ remainder = text_buffer)
      by (rewrite Hcat; apply firstn_skipn).
    repeat split.
    + fold framer_loop. rewrite Hrun, framed_cons. reflexivity.
    + simpl. rewrite <- app_assoc. exact T.
    + exact Hfind.
    + constructor; [apply cut_at_terminator; exact E | exact Hends].
    + rewrite T. exact E.
    + rewrite T. reflexivity.
    + exact Hcut.
  - exists [], text_buffer. rewrite framed_nil. repeat split.
    + apply Z.leb_gt in E. pose proof (find_lower_bound text_buffer CRLF). lia.
    + constructor.
Qed.

(** What the framer does with a chunk that decodes.  An empty chunk is
    skipped by [if len(raw_bytes)]: nothing is cut then, also when the
    buffer holds a terminator. *)
Lemma line_framer_cuts (raw_bytes : bytes) (decoded : str) (s : state) :
  decode raw_bytes = Some decoded ->
  exists segments remainder,
    line_framer raw_bytes s
    = (Returned tt, buffered remainder (framed segments s))
    /\ concat segments ++ remainder = read_buffer (self s) ++ decoded
    /\ Forall ends_with_CR segments
    /\ cut_at_terminators segments remainder
    /\ (find (read_buffer (self s)) CRLF = -1 -> find remainder CRLF = -1)
    /\ (raw_bytes <> [] -> find remainder CRLF = -1)
    /\ (raw_bytes = [] -> segments = []).
Proof.
  intros D. unfold line_framer. destruct (0 <? len raw_bytes) eqn:L.
  - py. rewrite D. unfold with_local.
    destruct (framer_loop_cuts (read_buffer (self s) ++ decoded) s)
      as (segments & remainder & Hrun & Hcat & Hfind & Hends & Hcut).
    exists segments, remainder. rewrite Hrun. simpl. repeat split; auto.
    intros ->. discriminate L.
  - apply len_positive in L. subst raw_bytes. rewrite decode_nil in D.
    inversion D; subst. exists [], (read_buffer (self s)).
    rewrite framed_nil, buffered_same, app_nil_r. simpl.
    repeat split; auto. congruence.
Qed.

(** What the framer does with a sequence of chunks that decode. *)
Lemma feed_cuts (chunks : list bytes) (texts : list str) (s : state) :
  Forall2 (fun raw_bytes text => decode raw_bytes = Some text) chunks texts ->
  exists segments remainder,
    feed chunks s = (Returned tt, buffered remainder (framed segments s))
    /\ concat segments ++ remainder = read_buffer (self s) ++ concat texts
    /\ Forall ends_with_CR segments
    /\ cut_at_terminators segments remainder
    /\ (find (read_buffer (self s)) CRLF = -1 -> find remainder CRLF = -1)
    /\ ((exists raw_bytes, In raw_bytes chunks /\ raw_bytes <> []) ->
        find remainder CRLF = -1)
    /\ ((forall raw_bytes, In raw_bytes chunks -> raw_bytes = []) ->
        segments = []).
Proof.
  intros F. revert s. induction F as [|raw text chunks texts D F IH]; intros s.
  - exists [], (read_buffer (self s)). simpl.
    rewrite framed_nil, buffered_same, app_nil_r. repeat split; auto.
    intros (raw & [] & _).
  - destruct (line_framer_cuts raw text s D)
      as (segs1 & r1 & Hrun1 & Hcat1 & Hends1 & Hcut1 & Hfind1 & Hsome1 & Hnone1).
    destruct (IH (buffered r1 (framed segs1 s)))
      as (segs2 & r2 & Hrun2 & Hcat2 & Hends2 & Hcut2 & Hfind2 & Hsome2 & Hnone2).
    exists (segs1 ++ segs2), r2. simpl feed. unfold bind. rewrite Hrun1, Hrun2.
    rewrite framed_buffered_framed, buffered_buffered. simpl in Hcat2, Hfind2.
    repeat split.
    + rewrite concat_app, <- app_assoc, Hcat2.
      simpl. rewrite !app_assoc. f_equal. exact Hcat1.
    + apply Forall_app; auto.
    + apply (cut_at_terminators_app segs1 segs2 r1 r2 (concat texts));
        assumption.
    + intros H. apply Hfind2. auto.
    + intros (x & [<-|I] & X).
      * apply Hfind2, Hsome1, X.
      * apply Hsome2. exists x. auto.
    + intros E. rewrite Hnone1, Hnone2; [reflexivity | |].
      * intros x I. apply E. right. exact I.
      * apply E. left. reflexivity.
Qed.

(** ** C1: the line framer *)

(** The two chunks of the scenario, [b"12.5\r\n7."] and [b"3\r\n"]. *)
Definition scenario_chunks : list bytes :=
  [blit "12.5" ++ bCRLF ++ blit "7."; blit "3" ++ bCRLF].

(** C1, as the code has it.  For every sequence of chunks that decode, the
    framer cuts the text accumulated (the buffer it started with, then the
    decoded chunks) into segments and keeps the rest in [read_buffer]: the
    segments followed by the final buffer are exactly the accumulated
    text, nothing dropped and nothing duplicated by the cut.  The cuts
    fall at the terminators, one after the other: each segment is the text
    that was left up to and including the carriage return of its first
    ["\r\n"], whose line feed begins what follows.  No terminator is left
    in the final buffer once a chunk was not empty, or when the starting
    buffer held none; with empty chunks only, nothing is cut.  The lines
    queued are the segments with their surrounding whitespace stripped, in
    order, after the lines that were already queued; nothing else of the
    driver or of the host changes.  Feeding ["12.5\r\n7."] then ["3\r\n"]
    to a new driver queues exactly ["12.5"] then ["7.3"]. *)
Theorem line_framer_conserves_text
        (chunks : list bytes) (texts : list str) (s : state) :
  Forall2 (fun raw_bytes text => decode raw_bytes = Some text) chunks texts ->
  (exists segments s',
      feed chunks s = (Returned tt, s')
      /\ host s' = host s
      /\ self s' = set_read_buffer (read_buffer (self s'))
                     (set_read_queue (read_queue (self s')) (self s))
      /\ read_queue (self s') = read_queue (self s) ++ map strip segments
      /\ concat segments ++ read_buffer (self s')
         = read_buffer (self s) ++ concat texts
      /\ Forall ends_with_CR segments
      /\ cut_at_terminators segments (read_buffer (self s'))
      /\ (find (read_buffer (self s)) CRLF = -1 ->
          find (read_buffer (self s')) CRLF = -1)
      /\ ((exists raw_bytes, In raw_bytes chunks /\ raw_bytes <> []) ->
          find (read_buffer (self s')) CRLF = -1)
      /\ ((forall raw_bytes, In raw_bytes chunks -> raw_bytes = []) ->
          segments = []))
  /\ read_queue
       (self (snd (feed scenario_chunks (fresh (lit "/dev/ttyUSB0") quiet))))
     = [lit "12.5"; lit "7.3"].
Proof.
  intros F. split; [|reflexivity].
  destruct (feed_cuts chunks texts s F)
    as (segments & remainder & Hrun & Hcat & Hends & Hcut & Hfind & Hsome & Hnone).
  exists segments, (buffered remainder (framed segments s)).
  repeat split; assumption.
Qed.

Lemma line_framer_conserves_text_witness :
  Forall2 (fun raw_bytes text => decode raw_bytes = Some text)
          scenario_chunks [lit "12.5" ++ CRLF ++ lit "7."; lit "3" ++ CRLF]
  /\ exists segments s',
      feed scenario_chunks (fresh (lit "/dev/ttyUSB0") quiet) = (Returned tt, s')
      /\ read_queue (self s') = [] ++ map strip segments
      /\ concat segments ++ read_buffer (self s')
         = [] ++ concat [lit "12.5" ++ CRLF ++ lit "7."; lit "3" ++ CRLF]
      /\ cut_at_terminators segments (read_buffer (self s'))
      /\ find (read_buffer (self s')) CRLF = -1.
Proof.
  assert (F : Forall2 (fun raw_bytes text => decode raw_bytes = Some text)
                scenario_chunks
                [lit "12.5" ++ CRLF ++ lit "7."; lit "3" ++ CRLF])
    by (repeat constructor).
  split; [exact F|].
  destruct (line_framer_conserves_text
              scenario_chunks [lit "12.5" ++ CRLF ++ lit "7."; lit "3" ++ CRLF]
              (fresh (lit "/dev/ttyUSB0") quiet) F)
    as [(segments & s' & Hrun & _ & _ & Hq & Hcat & _ & Hcut & _ & Hsome & _) _].
  exists segments, s'. repeat split; auto.
  apply Hsome. exists (blit "3" ++ bCRLF).
  split; [right; left; reflexivity | discriminate].
Defined.

(** What C1 says literally fails: the lines of the chunk [b" a \r\n"],
    each followed by the terminator, give ["a\r\n"], which is the stream
    [" a \r\n"] less no remainder whatever: the blanks around the line
    are dropped by [strip]. *)
Lemma line_framer_strips_blanks :
  let s' := snd (feed [blit " a " ++ bCRLF] (fresh (lit "/dev/ttyUSB0") quiet)) in
  read_queue (self s') = [lit "a"]
  /\ forall remainder : str,
      concat (map (fun line => line ++ CRLF) (read_queue (self s'))) ++ remainder
      <> lit " a " ++ CRLF.
Proof.
  split; [reflexivity|]. intros remainder. vm_compute. discriminate.
Qed.

(** ** C2: the poll callback at the failure threshold *)

Definition lost : str :=
  lit "Connection to SensorArray lost and could not be reestablished!".

Lemma _sample_PLA_SEAR_at_threshold (eventtime : Q) (s : state) :
  5 <= _failed_connection_attempts (self s) ->
  _sample_PLA_SEAR eventtime s
  = (Returned NEVER,
     mkState (set_events (events (host s) ++ [Shutdown lost]) (host s)) (self s)).
Proof.
  intros H. unfold _sample_PLA_SEAR. py.
  destruct (_failed_connection_attempts (self s) <? 5) eqn:E.
  - apply Z.ltb_lt in E. lia.
  - reflexivity.
Qed.

(** Six polls of a new driver whose port never opens. *)
Definition six_polls : outcome (list waketime) * state :=
  poll_ticks [0; 1 # 10; 2 # 10; 3 # 10; 4 # 10; 5 # 10]%Q
             (fresh (lit "/dev/ttyUSB0") quiet).

(** C2, as the code has it.  On every invocation with the failure counter
    at 5 or more the poll callback attempts no connection, makes one
    shutdown request, with the reason
    ["Connection to SensorArray lost and could not be reestablished!"],
    answers [NEVER] and leaves the driver as it was: so over any number of
    such invocations there is one request per invocation, and exactly one
    when the reactor, having been answered [NEVER], does not invoke the
    callback again.  A new driver whose port cannot be opened answers a
    next time on its first five polls, reaches the count of 5 without a
    request, and on the sixth makes its first request and answers
    [NEVER]. *)
Theorem sample_PLA_SEAR_terminal (eventtimes : list Q) (s : state) :
  5 <= _failed_connection_attempts (self s) ->
  (exists w',
      poll_ticks eventtimes s
      = (Returned (map (fun _ => NEVER) eventtimes), mkState w' (self s))
      /\ events w'
         = events (host s) ++ map (fun _ => Shutdown lost) eventtimes
      /\ port_opens w' = port_opens (host s)
      /\ opened w' = opened (host s)
      /\ timers w' = timers (host s))
  /\ contains lost (lit "could not be reestablished") = true
  /\ fst six_polls
     = Returned [At (0 + SERIAL_TIMER); At ((1 # 10) + SERIAL_TIMER);
                 At ((2 # 10) + SERIAL_TIMER); At ((3 # 10) + SERIAL_TIMER);
                 At ((4 # 10) + SERIAL_TIMER); NEVER]
  /\ _failed_connection_attempts (self (snd six_polls)) = 5
  /\ events (host (snd six_polls)) = [Shutdown lost].
Proof.
  intros H. split; [|repeat split; reflexivity].
  revert s H. induction eventtimes as [|t ts IH]; intros s H.
  - exists (host s). simpl. rewrite !app_nil_r. destruct s; auto.
  - simpl poll_ticks. unfold bind at 1.
    rewrite (_sample_PLA_SEAR_at_threshold t s H).
    destruct (IH (mkState (set_events (events (host s) ++ [Shutdown lost])
                                      (host s)) (self s)) H)
      as (w' & Hrun & Hev & Hop & Hopd & Htm).
    exists w'. unfold bind. rewrite Hrun. simpl in *.
    rewrite Hev, Hop, Hopd, Htm, <- app_assoc. repeat split.
    unfold opened. simpl. rewrite flat_map_app. simpl. apply app_nil_r.
Qed.

(** A driver that failed to connect five times. *)
Definition given_up : state := snd (poll_ticks [0; 1 # 10; 2 # 10; 3 # 10; 4 # 10]%Q
                                               (fresh (lit "/dev/ttyUSB0") quiet)).

Lemma sample_PLA_SEAR_terminal_witness :
  5 <= _failed_connection_attempts (self given_up)
  /\ exists w',
      poll_ticks [5 # 10; 6 # 10]%Q given_up
      = (Returned [NEVER; NEVER], mkState w' (self given_up))
      /\ events w' = events (host given_up) ++ [Shutdown lost; Shutdown lost].
Proof.
  assert (H : 5 <= _failed_connection_attempts (self given_up))
    by (vm_compute; discriminate).
  split; [exact H|].
  destruct (sample_PLA_SEAR_terminal [5 # 10; 6 # 10]%Q given_up H)
    as [(w' & Hrun & Hev & _) _].
  exists w'. auto.
Defined.

(** What C2 says literally fails: invoked on two further ticks after the
    counter reached 5, the callback requests the shutdown twice, not
    once. *)
Lemma sample_PLA_SEAR_requests_again :
  _failed_connection_attempts (self given_up) = 5
  /\ fst (poll_ticks [5 # 10; 6 # 10]%Q given_up) = Returned [NEVER; NEVER]
  /\ length (shutdowns (host (snd (poll_ticks [5 # 10; 6 # 10]%Q given_up))))
     <> 1%nat.
Proof. repeat split. vm_compute. discriminate. Qed.

(** ** [disconnect] *)

(** The object [disconnect] leaves. *)
Definition disconnected (disconnect_message : str) (d : PLA_SensorArray)
  : PLA_SensorArray :=
  set_write_timer None
    (set_read_timer None
       (set_serial None
          (set_write_queue (write_queue d ++ [disconnect_message]) d))).

(** The registrations left once [timer] was unregistered. *)
Definition forget (timer : option handle) (ts : list (handle * callback))
  : list (handle * callback) :=
  match timer with
  | Some h => remove_timer h ts
  | None => ts
  end.

Lemma remove_timer_absent (h : handle) (ts : list (handle * callback)) :
  existsb (fun t => Nat.eqb (fst t) h) ts = false -> remove_timer h ts = ts.
Proof.
  induction ts as [|[a cb] ts IH]; [reflexivity|].
  cbn [existsb remove_timer fst]. intros H.
  apply orb_false_iff in H. destruct H as [E H].
  rewrite E, IH by exact H. reflexivity.
Qed.

(** [w'] differs from [w] at most in its timers, its events and the
    script of [close]. *)
Definition port_kept (w w' : World) : Prop :=
  port_opens w' = port_opens w
  /\ port_reads w' = port_reads w
  /\ port_writes w' = port_writes w
  /\ monotonic_clock w' = monotonic_clock w
  /\ next_handle w' = next_handle w.

Lemma port_kept_refl (w : World) : port_kept w w.
Proof. repeat split. Qed.

Lemma port_kept_trans (w1 w2 w3 : World) :
  port_kept w1 w2 -> port_kept w2 w3 -> port_kept w1 w3.
Proof.
  unfold port_kept. intros (A1 & A2 & A3 & A4 & A5) (B1 & B2 & B3 & B4 & B5).
  repeat split; congruence.
Qed.

Lemma close_spec (ser : option Serial) (s : state) :
  exists r w',
    close ser s = (r, mkState w' (self s))
    /\ timers w' = timers (host s)
    /\ (events w' = events (host s) \/ events w' = events (host s) ++ [Close])
    /\ port_kept (host s) w'.
Proof.
  destruct s as [w d]. unfold close. py. simpl.
  destruct ser as [ser|]; simpl;
    [destruct (port_closes w) as [|[|] closes]|]; simpl;
    do 2 eexists; (split; [reflexivity|]); simpl; repeat split; auto.
Qed.

Lemma unregister_timer_spec (timer : option handle) (s : state) :
  exists r w',
    unregister_timer timer s = (r, mkState w' (self s))
    /\ timers w' = forget timer (timers (host s))
    /\ events w' = events (host s)
    /\ port_kept (host s) w'.
Proof.
  destruct s as [w d]. unfold unregister_timer, registered. py. simpl.
  destruct timer as [h|]; simpl;
    [destruct (existsb (fun t => Nat.eqb (fst t) h) (timers w)) eqn:R|]; simpl;
    do 2 eexists; (split; [reflexivity|]); simpl; repeat split; auto.
  symmetry. apply remove_timer_absent. exact R.
Qed.

Lemma try_swallow (m : Py unit) (s : state) :
  try_except m any_exception (ret tt) s = (Returned tt, snd (m s)).
Proof.
  unfold try_except, any_exception, ret. destruct (m s) as [[[]|e] s'];
    reflexivity.
Qed.

Lemma disconnect_spec (disconnect_message : str) (s : state) :
  exists w',
    disconnect disconnect_message s
    = (Returned tt, mkState w' (disconnected disconnect_message (self s)))
    /\ timers w'
       = forget (write_timer (self s))
                (forget (read_timer (self s)) (timers (host s)))
    /\ (events w' = events (host s) \/ events w' = events (host s) ++ [Close])
    /\ port_kept (host s) w'.
Proof.
  destruct s as [w d]. unfold disconnect.
  cbv [bind on_self modify]. rewrite try_swallow.
  cbv [bind get]. simpl.
  match goal with |- context [close ?ser ?st] =>
    destruct (close_spec ser st) as (r1 & w1 & -> & T1 & E1 & K1) end.
  cbn [snd]. rewrite try_swallow. cbv [bind get]. simpl.
  match goal with |- context [unregister_timer ?t ?st] =>
    destruct (unregister_timer_spec t st) as (r2 & w2 & -> & T2 & E2 & K2) end.
  cbn [snd]. rewrite try_swallow. cbv [bind get]. simpl.
  match goal with |- context [unregister_timer ?t ?st] =>
    destruct (unregister_timer_spec t st) as (r3 & w3 & -> & T3 & E3 & K3) end.
  simpl in *. exists w3. split; [reflexivity|].
  rewrite T3, T2, T1, E3, E2. repeat split; auto.
  all: eapply port_kept_trans; [eapply port_kept_trans|]; eassumption.
Qed.

Lemma registered_remove_other (h h' : handle) (ts : list (handle * callback)) :
  h <> h' ->
  existsb (fun t => Nat.eqb (fst t) h) (remove_timer h' ts)
  = existsb (fun t => Nat.eqb (fst t) h) ts.
Proof.
  intros N. induction ts as [|[a cb] ts IH]; [reflexivity|].
  cbn [remove_timer existsb fst]. destruct (Nat.eqb a h') eqn:E.
  - apply Nat.eqb_eq in E. subst a.
    destruct (Nat.eqb h' h) eqn:E'; [apply Nat.eqb_eq in E'; congruence|].
    reflexivity.
  - cbn [existsb fst]. rewrite IH. reflexivity.
Qed.

Lemma registered_in (h : handle) (ts : list (handle * callback)) :
  existsb (fun t => Nat.eqb (fst t) h) ts = true -> In h (map fst ts).
Proof.
  induction ts as [|[a cb] ts IH]; cbn [existsb map fst]; [discriminate|].
  intros H. apply orb_true_iff in H. destruct H as [H|H].
  - apply Nat.eqb_eq in H. left. exact H.
  - right. apply IH. exact H.
Qed.

Lemma registered_remove_same (h : handle) (ts : list (handle * callback)) :
  NoDup (map fst ts) ->
  existsb (fun t => Nat.eqb (fst t) h) (remove_timer h ts) = false.
Proof.
  induction ts as [|[a cb] ts IH]; intros N; [reflexivity|].
  cbn [remove_timer fst]. inversion N as [|x l Hnotin N']; subst.
  destruct (Nat.eqb a h) eqn:E.
  - apply Nat.eqb_eq in E. subst a.
    destruct (existsb (fun t => Nat.eqb (fst t) h) ts) eqn:R; [|reflexivity].
    apply registered_in in R. contradiction.
  - cbn [existsb fst]. rewrite E, IH by exact N'. reflexivity.
Qed.

Lemma remove_timer_incl (h x : handle) (ts : list (handle * callback)) :
  In x (map fst (remove_timer h ts)) -> In x (map fst ts).
Proof.
  induction ts as [|[a cb] ts IH]; [auto|]. cbn [remove_timer fst].
  destruct (Nat.eqb a h); cbn [map fst In]; intuition.
Qed.

Lemma remove_timer_NoDup (h : handle) (ts : list (handle * callback)) :
  NoDup (map fst ts) -> NoDup (map fst (remove_timer h ts)).
Proof.
  induction ts as [|[a cb] ts IH]; intros N; [exact N|].
  cbn [remove_timer fst]. inversion N as [|x l Hnotin N']; subst.
  destruct (Nat.eqb a h); [exact N'|]. cbn [map fst]. constructor.
  - intros I. apply Hnotin. eapply remove_timer_incl. exact I.
  - apply IH. exact N'.
Qed.

(** A call of [_init_PLA_SEAR] whose open succeeds. *)
Lemma _init_PLA_SEAR_opens (s : state) (rest : list bool) :
  port_opens (host s) = true :: rest ->
  exists s',
    _init_PLA_SEAR s = (Returned tt, s')
    /\ serial (self s') = Some (mkSerial (serial_port (self s)) BAUD 1)
    /\ write_queue (self s') = []
    /\ read_queue (self s') = []
    /\ read_buffer (self s') = read_buffer (self s)
    /\ read_timer (self s') = Some (next_handle (host s))
    /\ write_timer (self s') = Some (S (next_handle (host s)))
    /\ timers (host s')
       = timers (host s)
         ++ [(next_handle (host s), cb_run_Read);
             (S (next_handle (host s)), cb_run_Write)]
    /\ events (host s')
       = events (host s) ++ [Open (serial_port (self s)) BAUD].
Proof.
  intros O. unfold _init_PLA_SEAR, serial_Serial, register_timer. py.
  simpl. rewrite O. simpl. eexists. split; [reflexivity|]. simpl.
  repeat split. rewrite <- app_assoc. reflexivity.
Qed.

(** ** C7: [disconnect] never raises *)

(** C7.  From every state, a call of [disconnect] returns and leaves
    [serial], [read_timer] and [write_timer] at [None]; on the state it
    leaves, [close] and both [unregister_timer] calls raise, and a second
    [disconnect] returns all the same, again with [serial] at [None].  So
    does the first call on a driver that was never connected. *)
Theorem disconnect_twice (first second : str) (s : state) :
  exists s1 s2,
    disconnect first s = (Returned tt, s1)
    /\ serial (self s1) = None
    /\ read_timer (self s1) = None
    /\ write_timer (self s1) = None
    /\ close (serial (self s1)) s1 = (Raised AttributeError, s1)
    /\ unregister_timer (read_timer (self s1)) s1 = (Raised AttributeError, s1)
    /\ unregister_timer (write_timer (self s1)) s1 = (Raised AttributeError, s1)
    /\ disconnect second s1 = (Returned tt, s2)
    /\ serial (self s2) = None
    /\ read_timer (self s2) = None
    /\ write_timer (self s2) = None
    /\ serial (self (fresh (lit "/dev/ttyUSB0") quiet)) = None
    /\ fst (disconnect (lit "d") (fresh (lit "/dev/ttyUSB0") quiet))
       = Returned tt
    /\ serial (self (snd (disconnect (lit "d") (fresh (lit "/dev/ttyUSB0") quiet))))
       = None.
Proof.
  destruct (disconnect_spec first s) as (w1 & R1 & _).
  destruct (disconnect_spec second (mkState w1 (disconnected first (self s))))
    as (w2 & R2 & _).
  do 2 eexists. rewrite R1, R2. repeat split.
Qed.

(** ** C4: what [disconnect] resets *)

(** C4, as the code has it.  From every state whose registered timers have
    distinct handles, [disconnect] returns, leaves [serial], [read_timer]
    and [write_timer] at [None] and removes the registrations of the read
    and write timers, keeping the others.  It clears no buffer: the read
    buffer and the inbound queue are as before, and the outbound queue has
    the disconnect message appended.  The two queues are emptied, and the
    two timers registered anew, by the next [_init_PLA_SEAR] whose open
    succeeds; the read buffer is kept then too. *)
Theorem disconnect_keeps_buffers (disconnect_message : str) (s : state) :
  NoDup (map fst (timers (host s))) ->
  exists s',
    disconnect disconnect_message s = (Returned tt, s')
    /\ serial (self s') = None
    /\ read_timer (self s') = None
    /\ write_timer (self s') = None
    /\ read_buffer (self s') = read_buffer (self s)
    /\ read_queue (self s') = read_queue (self s)
    /\ write_queue (self s') = write_queue (self s) ++ [disconnect_message]
    /\ (forall h,
           read_timer (self s) = Some h \/ write_timer (self s) = Some h ->
           registered h (host s') = false)
    /\ (forall h,
           read_timer (self s) <> Some h -> write_timer (self s) <> Some h ->
           registered h (host s') = registered h (host s))
    /\ (forall rest,
           port_opens (host s') = true :: rest ->
           exists s'',
             _init_PLA_SEAR s' = (Returned tt, s'')
             /\ serial (self s'') = Some (mkSerial (serial_port (self s)) BAUD 1)
             /\ write_queue (self s'') = []
             /\ read_queue (self s'') = []
             /\ read_buffer (self s'') = read_buffer (self s)
             /\ read_timer (self s'') = Some (next_handle (host s'))
             /\ write_timer (self s'') = Some (S (next_handle (host s')))
             /\ timers (host s'')
                = timers (host s')
                  ++ [(next_handle (host s'), cb_run_Read);
                      (S (next_handle (host s')), cb_run_Write)]).
Proof.
  intros N. destruct (disconnect_spec disconnect_message s)
    as (w' & R & T & E & K).
  exists (mkState w' (disconnected disconnect_message (self s))).
  split; [exact R|]. simpl. repeat split.
  - intros h [H|H]; unfold registered; rewrite T, H; simpl.
    + destruct (write_timer (self s)) as [wt|]; simpl.
      * destruct (Nat.eq_dec h wt) as [->|D].
        -- apply registered_remove_same, remove_timer_NoDup, N.
        -- rewrite registered_remove_other by exact D.
           apply registered_remove_same, N.
      * apply registered_remove_same, N.
    + destruct (read_timer (self s)) as [rt|]; simpl;
        apply registered_remove_same; [apply remove_timer_NoDup|]; exact N.
  - intros h Hr Hw. unfold registered. rewrite T.
    destruct (write_timer (self s)) as [wt|]; simpl;
      [rewrite registered_remove_other by congruence|];
      (destruct (read_timer (self s)) as [rt|]; simpl;
       [rewrite registered_remove_other by congruence|]); reflexivity.
  - intros rest O.
    destruct (_init_PLA_SEAR_opens
                (mkState w' (disconnected disconnect_message (self s))) rest O)
      as (s'' & R' & S' & Wq & Rq & Rb & Rt & Wt & Tm & _).
    exists s''. repeat split; assumption.
Qed.

(** A connected driver with text in its buffer and entries in both
    queues. *)
Definition busy : state :=
  mkState (mkWorld [true] [] [] [] 0
                   [(0%nat, cb_sample_PLA_SEAR); (1%nat, cb_run_Read);
                    (2%nat, cb_run_Write)] 3%nat [] [])
          (mkPLA_SensorArray (Some (mkSerial (lit "/dev/ttyUSB0") BAUD 1))
                             (Some 1%nat) 0 0 (lit "7.") [lit "12.5"]
                             (Some 2%nat) [lit "read"] 0 true 0 []
                             (lit "/dev/ttyUSB0") (Some 0%nat)).

Lemma disconnect_keeps_buffers_witness :
  NoDup (map fst (timers (host busy)))
  /\ exists s',
      disconnect (lit "d") busy = (Returned tt, s')
      /\ serial (self s') = None
      /\ read_buffer (self s') = lit "7."
      /\ read_queue (self s') = [lit "12.5"]
      /\ write_queue (self s') = [lit "read"] ++ [lit "d"]
      /\ registered 1%nat (host s') = false
      /\ registered 2%nat (host s') = false
      /\ registered 0%nat (host s') = registered 0%nat (host busy).
Proof.
  assert (N : NoDup (map fst (timers (host busy)))).
  { simpl. repeat constructor; simpl; intuition discriminate. }
  split; [exact N|].
  destruct (disconnect_keeps_buffers (lit "d") busy N)
    as (s' & R & S1 & _ & _ & B & Q & W & Gone & Kept & _).
  exists s'.
  split; [exact R|]. split; [exact S1|]. split; [exact B|].
  split; [exact Q|]. split; [exact W|].
  split; [apply Gone; left; reflexivity|].
  split; [apply Gone; right; reflexivity|].
  apply Kept; discriminate.
Defined.

(** What C4 says literally fails: after [disconnect] on the busy driver
    the read buffer, the inbound queue and the outbound queue are not
    empty. *)
Lemma disconnect_clears_nothing :
  let s' := snd (disconnect (lit "d") busy) in
  read_buffer (self s') <> []
  /\ read_queue (self s') <> []
  /\ write_queue (self s') <> [].
Proof. vm_compute. repeat split; discriminate. Qed.

(** ** The line consumer *)

Lemma set_events_same (w : World) : set_events (events w ++ []) w = w.
Proof. destruct w. unfold set_events. simpl. rewrite app_nil_r. reflexivity. Qed.

Lemma set_read_queue_same (d : PLA_SensorArray) :
  set_read_queue (read_queue d) d = d.
Proof. destruct d. reflexivity. Qed.

(** What the console is told for a queued line. *)
Definition output_of (text_line : str) : event :=
  Info (lit "Output from SensorArray: " ++ rstrip text_line [NUL]).

Lemma _process_read_queue_spec (s : state) :
  _process_read_queue s
  = (Returned tt,
     mkState (set_events (events (host s) ++ map output_of (read_queue (self s)))
                         (host s))
             (set_read_queue [] (self s))).
Proof.
  remember (read_queue (self s)) as q eqn:Q. revert s Q.
  induction q as [|text_line q IH]; intros s Q;
    unfold _process_read_queue; rewrite while_step;
    unfold _process_read_queue_round at 1; py; rewrite <- Q.
  - simpl. rewrite set_events_same, Q, set_read_queue_same.
    destruct s; reflexivity.
  - fold _process_read_queue. rewrite IH by reflexivity.
    destruct s as [w d]. simpl. unfold output_of.
    rewrite <- app_assoc. reflexivity.
Qed.

Lemma dropwhile_split (p : Z -> bool) (s : str) :
  exists dropped,
    s = dropped ++ dropwhile p s
    /\ Forall (fun c => p c = true) dropped
    /\ forall c rest, dropwhile p s = c :: rest -> p c = false.
Proof.
  induction s as [|c s (dropped & E & F & H)]; simpl.
  - exists []. repeat split; [constructor | discriminate].
  - destruct (p c) eqn:P.
    + exists (c :: dropped). simpl. rewrite <- E. repeat split; auto.
    + exists []. repeat split; [constructor|]. intros c' rest X.
      inversion X; subst. exact P.
Qed.

Lemma all_NUL (l : str) :
  Forall (fun c => existsb (Z.eqb c) [NUL] = true) l ->
  l = repeat NUL (length l).
Proof.
  induction 1 as [|c l H F IH]; [reflexivity|]. simpl in *.
  rewrite orb_false_r in H. apply Z.eqb_eq in H. subst c. f_equal. exact IH.
Qed.

Lemma rstrip_NUL (text_line : str) :
  (exists k, text_line = rstrip text_line [NUL] ++ repeat NUL k)
  /\ forall line, rstrip text_line [NUL] <> line ++ [NUL].
Proof.
  unfold rstrip, rstrip_by.
  destruct (dropwhile_split (fun c => existsb (Z.eqb c) [NUL]) (rev text_line))
    as (dropped & E & F & H).
  split.
  - exists (length dropped). apply (f_equal (@rev Z)) in E.
    rewrite rev_involutive, rev_app_distr in E. rewrite E at 1. f_equal.
    rewrite (all_NUL dropped F) at 1. rewrite rev_repeat. reflexivity.
  - intros line X. apply (f_equal (@rev Z)) in X.
    rewrite rev_involutive, rev_app_distr in X. simpl in X.
    apply H in X. vm_compute in X. discriminate.
Qed.

(** ** C9: what the line consumer forwards *)

(** C9, as the code has it.  The line consumer always returns and leaves
    the inbound queue empty; it tells the console, in the order of the
    queue, one message per line: ["Output from SensorArray: "] followed by
    the line less the NUL characters at its end.  The text forwarded for a
    line is the line but for a run of NULs at its end, and does not end
    with a NUL; NULs elsewhere in the line are forwarded. *)
Theorem process_read_queue_forwards (s : state) :
  (exists s',
      _process_read_queue s = (Returned tt, s')
      /\ read_queue (self s') = []
      /\ events (host s')
         = events (host s)
           ++ map (fun text_line =>
                     Info (lit "Output from SensorArray: "
                           ++ rstrip text_line [NUL]))
                  (read_queue (self s)))
  /\ forall text_line,
      (exists k, text_line = rstrip text_line [NUL] ++ repeat NUL k)
      /\ forall line, rstrip text_line [NUL] <> line ++ [NUL].
Proof.
  split; [|apply rstrip_NUL].
  eexists. rewrite _process_read_queue_spec. repeat split.
Qed.

(** A driver with the line ["a\x00b\x00"] queued. *)
Definition queued_NUL : state :=
  mkState quiet
          (mkPLA_SensorArray None None 0 0 [] [[97; NUL; 98; NUL]] None []
                             0 true 0 [] (lit "/dev/ttyUSB0") None).

(** What C9 says literally fails: of the line ["a\x00b\x00"] the consumer
    forwards ["a\x00b"], with the NUL in the middle still there. *)
Lemma process_read_queue_keeps_inner_NUL :
  infos (host (snd (_process_read_queue queued_NUL)))
  = [lit "Output from SensorArray: " ++ [97; NUL; 98]]
  /\ Exists (fun msg => In NUL msg)
            (infos (host (snd (_process_read_queue queued_NUL)))).
Proof.
  split; [reflexivity|]. rewrite _process_read_queue_spec.
  left. vm_compute. do 26 right. left. reflexivity.
Qed.

(** ** The write pump *)

(** The entries of a queue that are written: the non-empty ones. *)
Definition to_send (queue : list str) : list str :=
  filter (fun text_line => 0 <? len text_line) queue.

(** Whether the [k]-th call of [write] from state [s] on goes through: the
    port is there and its script does not make that call raise. *)
Definition goes_through (s : state) (k : nat) : bool :=
  match serial (self s) with
  | None => false
  | Some _ => nth k (port_writes (host s)) true
  end.

Definition popped (rest : list str) (s : state) : state :=
  mkState (host s) (set_write_queue rest (self s)).

Lemma _run_Write_loop_done (s : state) :
  write_queue (self s) = [] -> _run_Write_loop s = (Returned tt, s).
Proof.
  intros Q. unfold _run_Write_loop. rewrite while_step.
  unfold _run_Write_round. py. rewrite Q. reflexivity.
Qed.

Lemma _run_Write_loop_skip (s : state) (text_line : str) (rest : list str) :
  write_queue (self s) = text_line :: rest ->
  (0 <? len text_line) = false ->
  _run_Write_loop s = _run_Write_loop (popped rest s).
Proof.
  intros Q E. unfold _run_Write_loop at 1. rewrite while_step.
  unfold _run_Write_round. py. rewrite Q, E. reflexivity.
Qed.

Lemma _run_Write_loop_unencodable (s : state) (text_line : str)
      (rest : list str) :
  write_queue (self s) = text_line :: rest ->
  (0 <? len text_line) = true ->
  encodes text_line = false ->
  _run_Write_loop s = (Raised UnicodeEncodeError, popped rest s).
Proof.
  intros Q E U. unfold _run_Write_loop. rewrite while_step.
  unfold _run_Write_round, encoded, encodes in *. py. rewrite Q, E.
  destruct (encode text_line); [discriminate | reflexivity].
Qed.

Lemma _run_Write_loop_sent (s s1 : state) (text_line : str) (rest : list str) :
  write_queue (self s) = text_line :: rest ->
  (0 <? len text_line) = true ->
  encodes text_line = true ->
  write (serial (self s)) text_line (popped rest s) = (Returned tt, s1) ->
  _run_Write_loop s = _run_Write_loop s1.
Proof.
  intros Q E U W. unfold _run_Write_loop at 1. rewrite while_step.
  unfold _run_Write_round, encoded, encodes in *. py. rewrite Q, E.
  destruct (encode text_line); [|discriminate]. py. fold (popped rest s).
  rewrite W. reflexivity.
Qed.

Lemma _run_Write_loop_failed (s s1 : state) (e : exn) (text_line : str)
      (rest : list str) :
  write_queue (self s) = text_line :: rest ->
  (0 <? len text_line) = true ->
  encodes text_line = true ->
  write (serial (self s)) text_line (popped rest s) = (Raised e, s1) ->
  _run_Write_loop s = disconnect (lit "d") s1.
Proof.
  intros Q E U W. unfold _run_Write_loop at 1. rewrite while_step.
  unfold _run_Write_round, encoded, encodes in *. py. rewrite Q, E.
  destruct (encode text_line); [|discriminate]. py. fold (popped rest s).
  rewrite W. destruct (disconnect_spec (lit "d") s1) as (w' & -> & _).
  reflexivity.
Qed.

Lemma write_through (s : state) (data : str) :
  goes_through s 0 = true ->
  exists w',
    write (serial (self s)) data s = (Returned tt, mkState w' (self s))
    /\ events w' = events (host s) ++ [Write data]
    /\ port_writes w' = tl (port_writes (host s))
    /\ timers w' = timers (host s).
Proof.
  unfold goes_through, write. destruct s as [w d]. simpl.
  destruct (serial d); [|discriminate]. py. simpl.
  destruct (port_writes w) as [|[|] rest] eqn:P; simpl; intros H;
    try discriminate; eexists; (split; [reflexivity|]); simpl;
    rewrite ?P; repeat split.
Qed.

Lemma write_not_through (s : state) (data : str) :
  goes_through s 0 = false ->
  exists e w',
    write (serial (self s)) data s = (Raised e, mkState w' (self s))
    /\ events w' = events (host s)
    /\ timers w' = timers (host s).
Proof.
  unfold goes_through, write. destruct s as [w d]. simpl.
  destruct (serial d); py; simpl.
  - destruct (port_writes w) as [|[|] rest]; simpl; intros H;
      try discriminate; do 2 eexists; (split; [reflexivity|]); repeat split.
  - intros _. do 2 eexists. split; [reflexivity|]. repeat split.
Qed.

Lemma nth_tl {A} (k : nat) (l : list A) (d : A) :
  nth k (tl l) d = nth (S k) l d.
Proof. destruct l; [destruct k|]; reflexivity. Qed.

Lemma set_write_queue_same (d : PLA_SensorArray) :
  set_write_queue (write_queue d) d = d.
Proof. destruct d. reflexivity. Qed.

(** When every non-empty entry encodes and no write raises, the queue is
    drained. *)
Lemma _run_Write_loop_drains (queue : list str) (s : state) :
  write_queue (self s) = queue ->
  forallb encodes (to_send queue) = true ->
  (forall k, (k < length (to_send queue))%nat -> goes_through s k = true) ->
  exists w',
    _run_Write_loop s = (Returned tt, mkState w' (set_write_queue [] (self s)))
    /\ events w' = events (host s) ++ map Write (to_send queue)
    /\ timers w' = timers (host s).
Proof.
  revert s. induction queue as [|text_line rest IH]; intros s Q U G.
  - rewrite _run_Write_loop_done by exact Q. exists (host s).
    split; [|simpl; rewrite app_nil_r; auto].
    rewrite <- Q, set_write_queue_same. destruct s; reflexivity.
  - simpl in G, U. destruct (0 <? len text_line) eqn:E.
    + simpl in U. apply andb_prop in U. destruct U as [U0 U].
      destruct (write_through (popped rest s) text_line) as (w1 & W & Ev & Pw & Tm).
      { apply (G 0%nat). simpl. lia. }
      rewrite (_run_Write_loop_sent s _ text_line rest Q E U0 W).
      destruct (IH (mkState w1 (self (popped rest s)))) as (w' & R & Ev' & Tm').
      { reflexivity. }
      { exact U. }
      { intros k Hk. specialize (G (S k)). unfold goes_through in *. simpl in *.
        rewrite Pw, nth_tl. apply G. lia. }
      exists w'. rewrite R. simpl in *. rewrite Ev', Ev, Tm', Tm, E. simpl.
      rewrite <- app_assoc. auto.
    + rewrite (_run_Write_loop_skip s text_line rest Q E).
      destruct (IH (popped rest s)) as (w' & R & Ev' & Tm');
        [reflexivity | exact U | exact G |].
      exists w'. rewrite R. simpl in *. rewrite E. auto.
Qed.

(** When a write raises the rest of the queue stays behind. *)
Lemma _run_Write_loop_aborts (before : list str) (x : str) (after : list str)
      (s : state) :
  write_queue (self s) = before ++ x :: after ->
  x <> [] ->
  forallb encodes (to_send before) = true ->
  encodes x = true ->
  (forall k, (k < length (to_send before))%nat -> goes_through s k = true) ->
  goes_through s (length (to_send before)) = false ->
  exists w',
    _run_Write_loop s
    = (Returned tt,
       mkState w' (disconnected (lit "d") (set_write_queue after (self s))))
    /\ (events w' = events (host s) ++ map Write (to_send before)
        \/ events w' = events (host s) ++ map Write (to_send before) ++ [Close])
    /\ timers w'
       = forget (write_timer (self s))
                (forget (read_timer (self s)) (timers (host s))).
Proof.
  intros Q X U Ux. revert s Q U.
  induction before as [|text_line rest IH]; intros s Q U G F.
  - assert (E : (0 <? len x) = true)
      by (destruct x; [congruence | reflexivity]).
    destruct (write_not_through (popped after s) x F) as (e & w1 & W & Ev & Tm).
    simpl in Q. rewrite (_run_Write_loop_failed s _ e x after Q E Ux W).
    destruct (disconnect_spec (lit "d") (mkState w1 (self (popped after s))))
      as (w' & R & T' & E' & _).
    exists w'. rewrite R. simpl in *. rewrite T', Tm, app_nil_r.
    split; [reflexivity|]. split; [|reflexivity].
    rewrite Ev in E'. exact E'.
  - simpl in Q, G, F, U. destruct (0 <? len text_line) eqn:E.
    + simpl in U. apply andb_prop in U. destruct U as [U0 U].
      destruct (write_through (popped (rest ++ x :: after) s) text_line)
        as (w1 & W & Ev & Pw & Tm).
      { apply (G 0%nat). simpl. lia. }
      rewrite (_run_Write_loop_sent s _ text_line _ Q E U0 W).
      destruct (IH (mkState w1 (self (popped (rest ++ x :: after) s))))
        as (w' & R & Ev' & Tm').
      { reflexivity. }
      { exact U. }
      { intros k Hk. specialize (G (S k)). unfold goes_through in *. simpl in *.
        rewrite Pw, nth_tl. apply G. lia. }
      { unfold goes_through in *. simpl in *. rewrite Pw, nth_tl. exact F. }
      exists w'. rewrite R. simpl in *. rewrite Tm', Tm, E, Ev in *. simpl.
      rewrite <- !app_assoc in Ev'. simpl in Ev'. auto.
    + rewrite (_run_Write_loop_skip s text_line _ Q E).
      destruct (IH (popped (rest ++ x :: after) s)) as (w' & R & Ev' & Tm');
        [reflexivity | exact U | exact G | exact F |].
      exists w'. rewrite R. simpl in *. rewrite E. auto.
Qed.

Lemma written_app (w w' : World) (sent : list str) (closing : list event) :
  events w' = events w ++ map Write sent ++ closing ->
  (closing = [] \/ closing = [Close]) ->
  written w' = written w ++ sent.
Proof.
  intros E C. unfold written. rewrite E, !flat_map_app. f_equal.
  replace (flat_map (fun e => match e with Write data => [data] | _ => [] end)
                    closing) with (@nil (list Z))
    by (destruct C; subst; reflexivity).
  rewrite app_nil_r. clear E.
  induction sent as [|x sent IH]; simpl; congruence.
Qed.

Lemma to_send_app (a b : list str) : to_send (a ++ b) = to_send a ++ to_send b.
Proof. apply filter_app. Qed.

Lemma to_send_cons (x : str) (after : list str) :
  x <> [] -> to_send (x :: after) = x :: to_send after.
Proof. intros X. destruct x; [congruence | reflexivity]. Qed.

(** [encode] on an ASCII letter, a two-octet, a three-octet and a four-octet
    code point, which [decode] gives back; a lone surrogate does not
    encode. *)
Lemma encode_samples :
  encode [65; 233; 8364; 128512]
  = Some [Byte.x41; Byte.xc3; Byte.xa9; Byte.xe2; Byte.x82; Byte.xac;
          Byte.xf0; Byte.x9f; Byte.x98; Byte.x80]
  /\ decode [Byte.x41; Byte.xc3; Byte.xa9; Byte.xe2; Byte.x82; Byte.xac;
             Byte.xf0; Byte.x9f; Byte.x98; Byte.x80]
     = Some [65; 233; 8364; 128512]
  /\ encode [55296] = None
  /\ encode [57343] = None
  /\ encodes (lit "read") = true.
Proof. repeat split. Qed.

(** The non-empty entries the pump gets to all encode.  It gets to an entry
    when the writes of the non-empty entries before it went through (an
    entry before it that does not encode is itself one the pump got to). *)
Definition reached_encode (s : state) : Prop :=
  forall before x after,
    write_queue (self s) = before ++ x :: after ->
    x <> [] ->
    (forall k, (k < length (to_send before))%nat -> goes_through s k = true) ->
    encodes x = true.

Lemma all_encode (s : state) :
  forallb encodes (write_queue (self s)) = true -> reached_encode s.
Proof.
  intros A before x after Q _ _. rewrite Q, forallb_app in A.
  apply andb_prop in A. destruct A as [_ A]. simpl in A.
  apply andb_prop in A. apply A.
Qed.

(** What the loop of the pump does, whatever the queue and the port. *)
Lemma _run_Write_loop_any (queue : list str) (s : state) :
  write_queue (self s) = queue ->
  exists r s' sent later,
    _run_Write_loop s = (r, s')
    /\ written (host s') = written (host s) ++ sent
    /\ to_send queue = sent ++ later
    /\ (serial (self s) = None -> sent = [])
    /\ (r = Returned tt \/ r = Raised UnicodeEncodeError)
    /\ (reached_encode s -> r = Returned tt).
Proof.
  revert s. induction queue as [|x rest IH]; intros s Q.
  - rewrite _run_Write_loop_done by exact Q.
    exists (Returned tt), s, [], []. rewrite app_nil_r. auto 10.
  - destruct (0 <? len x) eqn:E.
    2:{ rewrite (_run_Write_loop_skip s x rest Q E).
        destruct (IH (popped rest s) eq_refl)
          as (r & s' & sent & later & R & W & T & N & D & A).
        exists r, s', sent, later. simpl. rewrite E.
        repeat split; auto. intros H. apply A.
        intros before y after Q' Y G.
        apply (H (x :: before) y after); [rewrite Q; simpl in *; congruence | exact Y |].
        simpl. rewrite E. exact G. }
    assert (X : x <> []) by (intros ->; discriminate).
    destruct (encodes x) eqn:U.
    2:{ rewrite (_run_Write_loop_unencodable s x rest Q E U).
        exists (Raised UnicodeEncodeError), (popped rest s), [], (to_send (x :: rest)).
        rewrite app_nil_r. repeat split; auto.
        intros H. specialize (H [] x rest Q X). rewrite U in H.
        discriminate H. simpl. intros k Hk. lia. }
    destruct (goes_through (popped rest s) 0) eqn:G0.
    + destruct (write_through (popped rest s) x G0) as (w1 & W & Ev & Pw & Tm).
      rewrite (_run_Write_loop_sent s _ x rest Q E U W).
      destruct (IH (mkState w1 (self (popped rest s))) eq_refl)
        as (r & s' & sent & later & R & W' & T & N & D & A).
      exists r, s', (x :: sent), later. rewrite R.
      rewrite to_send_cons by exact X. simpl in *. rewrite W', T.
      repeat split; auto.
      * rewrite (written_app (host s) w1 [x] []); [|rewrite Ev; reflexivity | auto].
        rewrite <- app_assoc. reflexivity.
      * intros S0. unfold goes_through in G0. simpl in G0. rewrite S0 in G0.
        discriminate.
      * intros H. apply A. intros before y after Q' Y G.
        apply (H (x :: before) y after);
          [rewrite Q; simpl in *; congruence | exact Y |].
        rewrite to_send_cons by exact X. simpl. intros [|k] Hk.
        -- exact G0.
        -- specialize (G k). unfold goes_through in *. simpl in *.
           rewrite Pw, nth_tl in G. apply G. lia.
    + destruct (write_not_through (popped rest s) x G0) as (e & w1 & W & Ev & Tm).
      rewrite (_run_Write_loop_failed s _ e x rest Q E U W).
      destruct (disconnect_spec (lit "d") (mkState w1 (self (popped rest s))))
        as (w' & R & T' & E' & _).
      rewrite R. do 2 eexists. exists [], (to_send (x :: rest)).
      split; [reflexivity|]. simpl host.
      repeat split; auto.
      simpl in E'. rewrite Ev in E'.
      destruct E' as [E'|E'].
      * apply (written_app _ _ [] []); [|auto].
        rewrite E'. simpl. rewrite app_nil_r. reflexivity.
      * apply (written_app _ _ [] [Close]); [rewrite E'; reflexivity | auto].
Qed.

(** ** C8: the write pump *)

(** C8.  Whatever an invocation of [_run_Write] does, what it writes is, in
    the order of the queue, a first part of the non-empty entries; and when
    the non-empty entries it gets to encode as UTF-8 it returns [eventtime
    + SERIAL_TIMER].  When all non-empty entries encode and no write raises
    it writes all of them, leaves the queue empty and the port open.  When
    the write of an entry raises, after the writes of the non-empty entries
    before it went through (those and the entry encoding), it has written
    exactly those, has run [disconnect] ([serial] and both timers at
    [None]) and has left the entries after the failed one in the queue, in
    their order, followed by the disconnect message ["d"]: they are not
    written then, nor by any later invocation on the state it leaves. *)
Theorem run_Write_drains_in_order (eventtime : Q) (s : state) :
  (exists r s' sent later,
      _run_Write eventtime s = (r, s')
      /\ written (host s') = written (host s) ++ sent
      /\ to_send (write_queue (self s)) = sent ++ later
      /\ (reached_encode s -> r = Returned (At (eventtime + SERIAL_TIMER))))
  /\ (forallb encodes (to_send (write_queue (self s))) = true ->
      (forall k, (k < length (to_send (write_queue (self s))))%nat ->
                 goes_through s k = true) ->
      exists s',
        _run_Write eventtime s = (Returned (At (eventtime + SERIAL_TIMER)), s')
        /\ written (host s') = written (host s) ++ to_send (write_queue (self s))
        /\ write_queue (self s') = []
        /\ serial (self s') = serial (self s))
  /\ (forall before x after,
         write_queue (self s) = before ++ x :: after ->
         x <> [] ->
         forallb encodes (to_send before) = true ->
         encodes x = true ->
         (forall k, (k < length (to_send before))%nat -> goes_through s k = true) ->
         goes_through s (length (to_send before)) = false ->
         exists s',
           _run_Write eventtime s
           = (Returned (At (eventtime + SERIAL_TIMER)), s')
           /\ written (host s') = written (host s) ++ to_send before
           /\ serial (self s') = None
           /\ read_timer (self s') = None
           /\ write_timer (self s') = None
           /\ write_queue (self s') = after ++ [lit "d"]
           /\ (forall later_time,
                  written (host (snd (_run_Write later_time s')))
                  = written (host s'))
           /\ (forall rest,
                  port_opens (host s') = true :: rest ->
                  exists s'',
                    _init_PLA_SEAR s' = (Returned tt, s'')
                    /\ write_queue (self s'') = []
                    /\ written (host s'') = written (host s'))).
Proof.
  assert (Any : forall t s0,
             exists r s' sent later,
               _run_Write t s0 = (r, s')
               /\ written (host s') = written (host s0) ++ sent
               /\ to_send (write_queue (self s0)) = sent ++ later
               /\ (serial (self s0) = None -> sent = [])
               /\ (reached_encode s0 -> r = Returned (At (t + SERIAL_TIMER)))).
  { intros t s0.
    destruct (_run_Write_loop_any _ s0 eq_refl)
      as (r & s' & sent & later & R & W & T & N & D & A).
    unfold _run_Write. py. rewrite R.
    destruct D as [-> | ->].
    - exists (Returned (At (t + SERIAL_TIMER))), s', sent, later. auto.
    - exists (Raised UnicodeEncodeError), s', sent, later.
      repeat split; auto. intros H. specialize (A H). discriminate A. }
  split; [|split].
  - destruct (Any eventtime s) as (r & s' & sent & later & R & W & T & _ & A).
    exists r, s', sent, later. auto.
  - intros U G.
    destruct (_run_Write_loop_drains _ s eq_refl U G) as (w' & R & Ev & _).
    eexists. unfold _run_Write. py. rewrite R. split; [reflexivity|]. simpl.
    repeat split. apply (written_app _ _ _ []); [|auto].
    rewrite Ev, app_nil_r. reflexivity.
  - intros before x after Q X U Ux G F.
    destruct (_run_Write_loop_aborts before x after s Q X U Ux G F)
      as (w' & R & Ev & _).
    remember (mkState w' (disconnected (lit "d")
                                       (set_write_queue after (self s))))
      as s' eqn:S'.
    assert (N : serial (self s') = None) by (subst s'; reflexivity).
    exists s'. unfold _run_Write at 1. py. rewrite R.
    split; [reflexivity|]. split; [|split; [exact N|]].
    { subst s'. simpl. destruct Ev as [Ev|Ev].
      - apply (written_app _ _ _ []); [|auto]. rewrite Ev, app_nil_r. reflexivity.
      - apply (written_app _ _ _ [Close]); auto. }
    split; [subst s'; reflexivity|]. split; [subst s'; reflexivity|].
    split; [subst s'; reflexivity|]. split.
    + intros later_time.
      destruct (Any later_time s')
        as (r' & s'' & sent & later & R' & W' & _ & N' & _).
      rewrite R'. simpl. rewrite W', (N' N), app_nil_r. reflexivity.
    + intros rest O.
      destruct (_init_PLA_SEAR_opens s' rest O)
        as (s'' & R' & _ & Wq' & _ & _ & _ & _ & _ & Ev').
      exists s''. repeat split; auto. unfold written.
      rewrite Ev', flat_map_app. simpl. apply app_nil_r.
Qed.

(** A connected driver with ["A"], [""], ["B"], ["C"] queued, on a port
    whose first write goes through and whose second raises. *)
Definition three_queued : state :=
  mkState (mkWorld [] [] [] [true; false] 0
                   [(0%nat, cb_sample_PLA_SEAR); (1%nat, cb_run_Read);
                    (2%nat, cb_run_Write)] 3%nat [] [])
          (mkPLA_SensorArray (Some (mkSerial (lit "/dev/ttyUSB0") BAUD 1))
                             (Some 1%nat) 0 0 [] [] (Some 2%nat)
                             [lit "A"; []; lit "B"; lit "C"] 0 true 0 []
                             (lit "/dev/ttyUSB0") (Some 0%nat)).

(** A connected driver with ["CAL\r\n"] queued, on a port that takes every
    write. *)
Definition calibration_queued : state :=
  mkState (mkWorld [] [] [] [] 0
                   [(0%nat, cb_sample_PLA_SEAR); (1%nat, cb_run_Read);
                    (2%nat, cb_run_Write)] 3%nat [] [])
          (mkPLA_SensorArray (Some (mkSerial (lit "/dev/ttyUSB0") BAUD 1))
                             (Some 1%nat) 0 0 [] [] (Some 2%nat)
                             [lit "CAL" ++ CRLF] 0 true 0 []
                             (lit "/dev/ttyUSB0") (Some 0%nat)).

Lemma run_Write_drains_in_order_witness :
  (exists s',
      _run_Write 0 three_queued = (Returned (At (0 + SERIAL_TIMER)), s')
      /\ written (host s') = written (host three_queued) ++ to_send [lit "A"; []]
      /\ serial (self s') = None
      /\ write_queue (self s') = [lit "C"] ++ [lit "d"])
  /\ (exists s',
         _run_Write 0 calibration_queued
         = (Returned (At (0 + SERIAL_TIMER)), s')
         /\ written (host s')
            = written (host calibration_queued)
              ++ to_send (write_queue (self calibration_queued))
         /\ write_queue (self s') = [])
  /\ (exists s', _run_Write 0 three_queued
                 = (Returned (At (0 + SERIAL_TIMER)), s')).
Proof.
  split; [|split].
  - destruct (run_Write_drains_in_order 0 three_queued) as (_ & _ & Stop).
    destruct (Stop [lit "A"; []] (lit "B") [lit "C"])
      as (s' & R & W & S1 & _ & _ & Q & _).
    + reflexivity.
    + discriminate.
    + reflexivity.
    + reflexivity.
    + intros k Hk. simpl in Hk. destruct k as [|k]; [reflexivity | lia].
    + reflexivity.
    + exists s'. auto.
  - destruct (run_Write_drains_in_order 0 calibration_queued) as (_ & Drain & _).
    destruct Drain as (s' & R & W & Q & _).
    + reflexivity.
    + intros k Hk. simpl in Hk. destruct k as [|k]; [reflexivity | lia].
    + exists s'. auto.
  - destruct (run_Write_drains_in_order 0 three_queued) as (Any & _).
    destruct Any as (r & s' & sent & later & R & _ & _ & A).
    exists s'. rewrite R, A; [reflexivity|].
    apply all_encode. reflexivity.
Defined.

(** A connected driver whose queue holds a lone surrogate before ["read"]. *)
Definition surrogate_queued : state :=
  mkState (mkWorld [] [] [] [] 0
                   [(0%nat, cb_sample_PLA_SEAR); (1%nat, cb_run_Read);
                    (2%nat, cb_run_Write)] 3%nat [] [])
          (mkPLA_SensorArray (Some (mkSerial (lit "/dev/ttyUSB0") BAUD 1))
                             (Some 1%nat) 0 0 [] [] (Some 2%nat)
                             [[55296]; lit "read"] 0 true 0 []
                             (lit "/dev/ttyUSB0") (Some 0%nat)).

(** What C8 says literally fails: with the lone surrogate [U+D800] queued
    before ["read"], on an open port that takes every write, [_run_Write]
    does not return the next tick time: the [encode()] of the log call
    raises [UnicodeEncodeError] out of it.  Nothing is written, ["read"]
    stays in the queue and [disconnect] is not run. *)
Lemma run_Write_raises_on_surrogate :
  _run_Write 0 surrogate_queued
  = (Raised UnicodeEncodeError, popped [lit "read"] surrogate_queued)
  /\ written (host (snd (_run_Write 0 surrogate_queued))) = []
  /\ serial (self (snd (_run_Write 0 surrogate_queued)))
     = serial (self surrogate_queued).
Proof.
  assert (R : _run_Write 0 surrogate_queued
              = (Raised UnicodeEncodeError, popped [lit "read"] surrogate_queued)).
  { unfold _run_Write. py.
    rewrite (_run_Write_loop_unencodable surrogate_queued [55296] [lit "read"]);
      reflexivity. }
  rewrite R. repeat split.
Qed.

(** ** The read pump *)

Definition polled (rest : list port_step) (s : state) : state :=
  mkState (set_port_reads rest (host s)) (self s).

Definition shut_down (msg : str) (s : state) : state :=
  mkState (set_events (events (host s) ++ [Shutdown msg]) (host s)) (self s).

(** Whether the bytes a step delivers, if any, decode. *)
Definition decodes (step : port_step) : bool :=
  match step with
  | read_gives raw => match decode raw with Some _ => true | None => false end
  | _ => true
  end.

(** Whether a step delivers more than 1000 bytes. *)
Definition oversized (step : port_step) : bool :=
  match step with
  | read_gives raw => 1000 <? len raw
  | _ => false
  end.

Lemma _run_Read_loop_unconnected (s : state) :
  serial (self s) = None ->
  _run_Read_loop s = disconnect (lit "d") s.
Proof.
  intros N. unfold _run_Read_loop. rewrite while_step.
  unfold _run_Read_round, in_waiting_then_read. py. rewrite N.
  destruct (disconnect_spec (lit "d") s) as (w' & -> & _). reflexivity.
Qed.

Lemma _run_Read_loop_nothing (s : state) (ser : Serial) :
  serial (self s) = Some ser ->
  port_reads (host s) = [] ->
  _run_Read_loop s = (Returned tt, s).
Proof.
  intros C P. unfold _run_Read_loop. rewrite while_step.
  unfold _run_Read_round, in_waiting_then_read. py. rewrite C, P. reflexivity.
Qed.

Lemma _run_Read_loop_zero (s : state) (ser : Serial) (rest : list port_step) :
  serial (self s) = Some ser ->
  port_reads (host s) = in_waiting_zero :: rest ->
  _run_Read_loop s = (Returned tt, polled rest s).
Proof.
  intros C P. unfold _run_Read_loop. rewrite while_step.
  unfold _run_Read_round, in_waiting_then_read. py. rewrite C, P. reflexivity.
Qed.

Lemma _run_Read_loop_raises (s : state) (ser : Serial) (step : port_step)
      (rest : list port_step) :
  serial (self s) = Some ser ->
  port_reads (host s) = step :: rest ->
  step = in_waiting_raises \/ step = read_raises ->
  _run_Read_loop s = disconnect (lit "d") (polled rest s).
Proof.
  intros C P S. unfold _run_Read_loop. rewrite while_step.
  unfold _run_Read_round, in_waiting_then_read. py. rewrite C, P.
  fold (polled rest s).
  destruct (disconnect_spec (lit "d") (polled rest s)) as (w' & R & _).
  destruct S; subst step; simpl; fold (polled rest s); rewrite R; reflexivity.
Qed.

Lemma _run_Read_loop_gives (s s1 : state) (ser : Serial) (raw : bytes)
      (rest : list port_step) (r : outcome unit) :
  serial (self s) = Some ser ->
  port_reads (host s) = read_gives raw :: rest ->
  line_framer raw (polled rest s) = (r, s1) ->
  _run_Read_loop s
  = match r with
    | Returned _ =>
      if 1000 <? len raw
      then _run_Read_loop (shut_down (lit "Buffer to large.") s1)
      else (Returned tt, s1)
    | Raised e => (Raised e, s1)
    end.
Proof.
  intros C P F. unfold _run_Read_loop at 1. rewrite while_step.
  unfold _run_Read_round, in_waiting_then_read. py. rewrite C, P. simpl.
  fold (polled rest s). rewrite F. destruct r as [[]|e]; [|reflexivity].
  destruct (1000 <? len raw); reflexivity.
Qed.

Definition overflow : str := lit "Buffer to large.".

Lemma shutdowns_closing (w w' : World) :
  events w' = events w \/ events w' = events w ++ [Close] ->
  shutdowns w' = shutdowns w.
Proof.
  unfold shutdowns. intros [E|E]; rewrite E; [reflexivity|].
  rewrite flat_map_app. simpl. apply app_nil_r.
Qed.

Lemma shutdowns_outputs (w : World) (queue : list str) :
  shutdowns (set_events (events w ++ map output_of queue) w) = shutdowns w.
Proof.
  unfold shutdowns. simpl. rewrite flat_map_app.
  replace (flat_map _ (map output_of queue)) with (@nil (list Z));
    [apply app_nil_r|].
  induction queue as [|l q IH]; simpl; auto.
Qed.

Ltac finish_read :=
  repeat split; simpl; rewrite ?app_nil_r; auto;
  try congruence; try (eexists; reflexivity);
  try (left; repeat split; auto; congruence);
  try (right; repeat split; auto; congruence).

(** The reads the pump gets to all decode.  A connected pump gets to the
    step that is waiting, and to the step after each read of more than 1000
    bytes that it got to; an unconnected pump reads nothing. *)
Definition reached_decode (s : state) : Prop :=
  serial (self s) <> None ->
  forall floods step rest,
    port_reads (host s) = map read_gives floods ++ step :: rest ->
    Forall (fun raw => 1000 < len raw) floods ->
    decodes step = true.

Lemma all_decode (s : state) :
  forallb decodes (port_reads (host s)) = true -> reached_decode s.
Proof.
  intros A _ floods step rest P _. rewrite P, forallb_app in A.
  apply andb_prop in A. destruct A as [_ A]. simpl in A.
  apply andb_prop in A. apply A.
Qed.

(** What the loop of [_run_Read] does when the reads it gets to decode. *)
Lemma _run_Read_loop_spec (steps : list port_step) (s : state) :
  port_reads (host s) = steps ->
  reached_decode s ->
  exists s' consumed,
    _run_Read_loop s = (Returned tt, s')
    /\ steps = consumed ++ port_reads (host s')
    /\ shutdowns (host s')
       = shutdowns (host s) ++ map (fun _ => overflow) (filter oversized consumed)
    /\ (timers (host s') = timers (host s)
        /\ serial (self s') = serial (self s)
        /\ read_timer (self s') = read_timer (self s)
        /\ write_timer (self s') = write_timer (self s)
        \/ serial (self s') = None
           /\ read_timer (self s') = None
           /\ write_timer (self s') = None
           /\ timers (host s')
              = forget (write_timer (self s))
                       (forget (read_timer (self s)) (timers (host s))))
    /\ last_debug_message (self s') = last_debug_message (self s)
    /\ monotonic_clock (host s') = monotonic_clock (host s)
    /\ (serial (self s) <> None -> steps <> [] ->
        exists later, consumed = hd in_waiting_zero steps :: later).
Proof.
  revert s. induction steps as [|step rest IH]; intros s P D.
  - destruct (serial (self s)) as [ser|] eqn:C.
    + rewrite (_run_Read_loop_nothing s ser C P). exists s, [].
      rewrite P, app_nil_r. finish_read.
    + rewrite (_run_Read_loop_unconnected s C).
      destruct (disconnect_spec (lit "d") s) as (w' & R & T & E & K).
      rewrite R. exists (mkState w' (disconnected (lit "d") (self s))), [].
      destruct K as (_ & K & _ & Kc & _). simpl.
      rewrite K, P, (shutdowns_closing _ _ E), app_nil_r. finish_read.
  - destruct (serial (self s)) as [ser|] eqn:C.
    2:{ rewrite (_run_Read_loop_unconnected s C).
        destruct (disconnect_spec (lit "d") s) as (w' & R & T & E & K).
        rewrite R. exists (mkState w' (disconnected (lit "d") (self s))), [].
        destruct K as (_ & K & _ & Kc & _). simpl.
        rewrite K, P, (shutdowns_closing _ _ E), app_nil_r. finish_read. }
    assert (D1 : decodes step = true).
    { apply (D ltac:(congruence) [] step rest P). constructor. }
    destruct step as [| | |raw].
    + rewrite (_run_Read_loop_raises s ser _ rest C P) by auto.
      destruct (disconnect_spec (lit "d") (polled rest s)) as (w' & R & T & E & K).
      rewrite R.
      exists (mkState w' (disconnected (lit "d") (self s))), [in_waiting_raises].
      destruct K as (_ & K & _ & Kc & _). simpl in *.
      rewrite K, (shutdowns_closing _ _ E), app_nil_r. finish_read.
    + rewrite (_run_Read_loop_zero s ser rest C P).
      exists (polled rest s), [in_waiting_zero]. simpl.
      rewrite app_nil_r. finish_read.
    + rewrite (_run_Read_loop_raises s ser _ rest C P) by auto.
      destruct (disconnect_spec (lit "d") (polled rest s)) as (w' & R & T & E & K).
      rewrite R.
      exists (mkState w' (disconnected (lit "d") (self s))), [read_raises].
      destruct K as (_ & K & _ & Kc & _). simpl in *.
      rewrite K, (shutdowns_closing _ _ E), app_nil_r. finish_read.
    + simpl in D1. destruct (decode raw) as [decoded|] eqn:Dc; [|discriminate].
      destruct (line_framer_spec raw decoded (polled rest s) Dc)
        as (segments & remainder & F & _).
      rewrite (_run_Read_loop_gives s _ ser raw rest _ C P F).
      destruct (1000 <? len raw) eqn:L.
      * destruct (IH (shut_down overflow
                                (buffered remainder (framed segments (polled rest s)))))
          as (s' & consumed & R & Sp & Sh & Tm & Msg & Clk & _).
        { reflexivity. }
        { intros _ floods step rest' P' Fl.
          apply (D ltac:(congruence) (raw :: floods) step rest').
          - rewrite P. simpl in *. rewrite P'. reflexivity.
          - constructor; [apply Z.ltb_lt; exact L | exact Fl]. }
        fold overflow. rewrite R. exists s', (read_gives raw :: consumed).
        simpl in *. rewrite L. simpl. rewrite Sh, <- Sp, Msg, Clk.
        repeat split; auto.
        -- unfold shutdowns. simpl. rewrite flat_map_app, <- app_assoc.
           reflexivity.
        -- rewrite C in Tm. exact Tm.
        -- eexists; reflexivity.
      * exists (buffered remainder (framed segments (polled rest s))),
               [read_gives raw].
        simpl. rewrite L, app_nil_r. finish_read.
Qed.

(** What an invocation of [_run_Read] does when the reads it gets to
    decode. *)
Lemma _run_Read_reached (eventtime : Q) (s : state) :
  reached_decode s ->
  exists s' consumed,
    _run_Read eventtime s = (Returned (At (eventtime + SERIAL_TIMER)), s')
    /\ port_reads (host s) = consumed ++ port_reads (host s')
    /\ shutdowns (host s')
       = shutdowns (host s) ++ map (fun _ => overflow) (filter oversized consumed)
    /\ (timers (host s') = timers (host s)
        /\ serial (self s') = serial (self s)
        /\ read_timer (self s') = read_timer (self s)
        /\ write_timer (self s') = write_timer (self s)
        \/ serial (self s') = None
           /\ read_timer (self s') = None
           /\ write_timer (self s') = None
           /\ timers (host s')
              = forget (write_timer (self s))
                       (forget (read_timer (self s)) (timers (host s))))
    /\ last_debug_message (self s') = last_debug_message (self s)
    /\ last_debug_timestamp (self s') = monotonic_clock (host s)
    /\ read_queue (self s') = []
    /\ (serial (self s) <> None -> port_reads (host s) <> [] ->
        exists later, consumed = hd in_waiting_zero (port_reads (host s)) :: later).
Proof.
  intros D.
  destruct (_run_Read_loop_spec _ s eq_refl D)
    as (s1 & consumed & R & Sp & Sh & Tm & Msg & Clk & Hd).
  unfold _run_Read. py. rewrite R, _process_read_queue_spec.
  eexists. exists consumed. split; [reflexivity|]. simpl.
  rewrite shutdowns_outputs. repeat split; auto.
Qed.

(** What an invocation of [_run_Read] does when everything delivered
    decodes. *)
Lemma _run_Read_spec (eventtime : Q) (s : state) :
  forallb decodes (port_reads (host s)) = true ->
  exists s' consumed,
    _run_Read eventtime s = (Returned (At (eventtime + SERIAL_TIMER)), s')
    /\ port_reads (host s) = consumed ++ port_reads (host s')
    /\ shutdowns (host s')
       = shutdowns (host s) ++ map (fun _ => overflow) (filter oversized consumed)
    /\ (timers (host s') = timers (host s)
        /\ serial (self s') = serial (self s)
        /\ read_timer (self s') = read_timer (self s)
        /\ write_timer (self s') = write_timer (self s)
        \/ serial (self s') = None
           /\ read_timer (self s') = None
           /\ write_timer (self s') = None
           /\ timers (host s')
              = forget (write_timer (self s))
                       (forget (read_timer (self s)) (timers (host s))))
    /\ last_debug_message (self s') = last_debug_message (self s)
    /\ last_debug_timestamp (self s') = monotonic_clock (host s)
    /\ read_queue (self s') = []
    /\ (serial (self s) <> None -> port_reads (host s) <> [] ->
        exists later, consumed = hd in_waiting_zero (port_reads (host s)) :: later).
Proof. intros D. apply _run_Read_reached, all_decode, D. Qed.

(** ** C6: the overflow guard *)

(** C6, as the code has it.  In every invocation of the read pump in which
    the bytes it reads decode, each read that returns more than 1000 bytes
    is followed by a shutdown request with the reason ["Buffer to large."],
    and no other read is: the requests made are, in order, one for each of
    the reads consumed that returned more than 1000 bytes.  A connected
    driver does consume the read that is waiting.  Neither what the bytes
    contain nor the failure counter has a part in it.  When each read
    consumed returned at most one byte, which is what [read()] returns
    with the size pyserial gives it, no request is made. *)
Theorem read_overflow_requests_shutdown (eventtime : Q) (s : state) :
  reached_decode s ->
  exists s' consumed,
    _run_Read eventtime s = (Returned (At (eventtime + SERIAL_TIMER)), s')
    /\ port_reads (host s) = consumed ++ port_reads (host s')
    /\ shutdowns (host s')
       = shutdowns (host s)
         ++ map (fun _ => lit "Buffer to large.") (filter oversized consumed)
    /\ (serial (self s) <> None -> port_reads (host s) <> [] ->
        exists later, consumed = hd in_waiting_zero (port_reads (host s)) :: later)
    /\ ((forall raw, In (read_gives raw) consumed -> len raw <= 1) ->
        shutdowns (host s') = shutdowns (host s)).
Proof.
  intros D. destruct (_run_Read_reached eventtime s D)
    as (s' & consumed & R & Sp & Sh & _ & _ & _ & _ & Hd).
  exists s', consumed. repeat split; auto.
  intros One. rewrite Sh.
  replace (filter oversized consumed) with (@nil port_step);
    [apply app_nil_r|].
  clear - One. induction consumed as [|step consumed IH]; [reflexivity|].
  simpl. destruct (oversized step) eqn:O.
  - destruct step as [| | |raw]; try discriminate. simpl in O.
    apply Z.ltb_lt in O. specialize (One raw (or_introl eq_refl)). lia.
  - apply IH. intros raw I. apply One. right. exact I.
Qed.

(** A connected driver with nothing queued, on a port that delivers
    [reads]. *)
Definition connected (reads : list port_step) : state :=
  mkState (mkWorld [] [] reads [] 0
                   [(0%nat, cb_sample_PLA_SEAR); (1%nat, cb_run_Read);
                    (2%nat, cb_run_Write)] 3%nat [] [])
          (mkPLA_SensorArray (Some (mkSerial (lit "/dev/ttyUSB0") BAUD 1))
                             (Some 1%nat) 0 0 [] [] (Some 2%nat) [] 0 true 0 []
                             (lit "/dev/ttyUSB0") (Some 0%nat)).

(** 1001 bytes without a terminator, then 1000 bytes, then a byte that is
    not UTF-8: the pump stops before it. *)
Definition flood_then_noise : list port_step :=
  [read_gives (repeat Byte.x61 1001); read_gives (repeat Byte.x61 1000);
   read_gives [Byte.xff]].

Lemma flood_then_noise_reached : reached_decode (connected flood_then_noise).
Proof.
  intros _ floods step rest P Fl.
  destruct floods as [|f1 [|f2 floods]]; simpl in P; inversion P; subst.
  - reflexivity.
  - reflexivity.
  - inversion Fl as [|? ? _ Fl']. inversion Fl' as [|? ? L _].
    vm_compute in L. discriminate L.
Qed.

Lemma read_overflow_requests_shutdown_witness :
  (exists s',
      _run_Read 0 (connected flood_then_noise)
      = (Returned (At (0 + SERIAL_TIMER)), s')
      /\ port_reads (host s') = [read_gives [Byte.xff]]
      /\ shutdowns (host s') = [lit "Buffer to large."])
  /\ (exists s',
         _run_Read 0 (connected [read_gives [Byte.x61]])
         = (Returned (At (0 + SERIAL_TIMER)), s')
         /\ shutdowns (host s') = []).
Proof.
  split.
  - destruct (read_overflow_requests_shutdown
                0 (connected flood_then_noise) flood_then_noise_reached)
      as (s' & consumed & R & Sp & Sh & _).
    exists s'. split; [exact R|].
    assert (E : s' = snd (_run_Read 0 (connected flood_then_noise)))
      by (rewrite R; reflexivity).
    rewrite E. split; vm_compute; reflexivity.
  - destruct (read_overflow_requests_shutdown
                0 (connected [read_gives [Byte.x61]]))
      as (s' & consumed & R & Sp & Sh & _ & One).
    + apply all_decode. reflexivity.
    + exists s'. split; [exact R|]. apply One. intros raw I.
      assert (J : In (read_gives raw)
                     (port_reads (host (connected [read_gives [Byte.x61]]))))
        by (rewrite Sp; apply in_or_app; left; exact I).
      simpl in J. destruct J as [J|[]]. inversion J. vm_compute. discriminate.
Defined.

(** What C6 says literally fails.  The reason given for a read of 1001
    bytes is ["Buffer to large."], which is not, and does not contain,
    ["Buffer too large"]; and a read of 1001 bytes that do not decode
    raises [UnicodeDecodeError] out of the pump before the guard is
    reached, with no request made. *)
Lemma read_overflow_reason :
  shutdowns (host (snd (_run_Read 0 (connected [read_gives (repeat Byte.x61 1001)]))))
  = [lit "Buffer to large."]
  /\ existsb (fun msg => contains msg (lit "Buffer too large"))
             (shutdowns
                (host (snd (_run_Read 0 (connected
                                           [read_gives (repeat Byte.x61 1001)])))))
     = false
  /\ _run_Read 0 (connected [read_gives (repeat Byte.xff 1001)])
     = (Raised UnicodeDecodeError, connected [])
  /\ shutdowns (host (connected [])) = [].
Proof. repeat split; vm_compute; reflexivity. Qed.

(** ** C10: the pumps reschedule themselves *)

(** Either nothing happened to the timers and the port, or [disconnect]
    ran. *)
Definition timers_kept_or_dropped (s s' : state) : Prop :=
  timers (host s') = timers (host s)
  /\ serial (self s') = serial (self s)
  /\ read_timer (self s') = read_timer (self s)
  /\ write_timer (self s') = write_timer (self s)
  \/ serial (self s') = None
     /\ read_timer (self s') = None
     /\ write_timer (self s') = None
     /\ timers (host s')
        = forget (write_timer (self s))
                 (forget (read_timer (self s)) (timers (host s))).

Lemma _run_Write_loop_timers (queue : list str) (s s' : state)
      (r : outcome unit) :
  write_queue (self s) = queue ->
  _run_Write_loop s = (r, s') ->
  timers_kept_or_dropped s s'.
Proof.
  revert s. induction queue as [|x rest IH]; intros s Q.
  - rewrite _run_Write_loop_done by exact Q. intros H. inversion H; subst.
    left. auto.
  - destruct (0 <? len x) eqn:E.
    2:{ rewrite (_run_Write_loop_skip s x rest Q E). intros H.
        apply IH in H; [exact H | reflexivity]. }
    destruct (encodes x) eqn:U.
    2:{ rewrite (_run_Write_loop_unencodable s x rest Q E U). intros H.
        inversion H; subst. left. auto. }
    destruct (goes_through (popped rest s) 0) eqn:G0.
    + destruct (write_through (popped rest s) x G0) as (w1 & W & Ev & Pw & Tm).
      rewrite (_run_Write_loop_sent s _ x rest Q E U W). intros H.
      apply IH in H; [|reflexivity]. unfold timers_kept_or_dropped in *.
      simpl in *. rewrite Tm in H. exact H.
    + destruct (write_not_through (popped rest s) x G0) as (e & w1 & W & Ev & Tm).
      rewrite (_run_Write_loop_failed s _ e x rest Q E U W).
      destruct (disconnect_spec (lit "d") (mkState w1 (self (popped rest s))))
        as (w' & R & T' & _).
      rewrite R. intros H. inversion H; subst. right. simpl in *.
      rewrite T', Tm. auto.
Qed.

(** When the entries it gets to encode, [_run_Write] returns, and either
    runs [disconnect] or leaves the timers alone. *)
Lemma _run_Write_spec (eventtime : Q) (s : state) :
  reached_encode s ->
  exists s',
    _run_Write eventtime s = (Returned (At (eventtime + SERIAL_TIMER)), s')
    /\ timers_kept_or_dropped s s'.
Proof.
  intros U.
  destruct (_run_Write_loop_any _ s eq_refl)
    as (r & s' & sent & later & R & _ & _ & _ & _ & A).
  rewrite (A U) in R. exists s'. unfold _run_Write. py. rewrite R.
  split; [reflexivity|]. exact (_run_Write_loop_timers _ s s' _ eq_refl R).
Qed.

(** Whenever [_run_Read] returns, it returns the next tick. *)
Lemma _run_Read_returned (eventtime : Q) (s s' : state) (r : waketime) :
  _run_Read eventtime s = (Returned r, s') -> r = At (eventtime + SERIAL_TIMER).
Proof.
  unfold _run_Read. py. destruct (_run_Read_loop s) as [[[]|e] s1];
    [|discriminate].
  rewrite _process_read_queue_spec. intros H. inversion H. reflexivity.
Qed.

(** Whenever [_run_Write] returns, it returns the next tick. *)
Lemma _run_Write_returned (eventtime : Q) (s s' : state) (r : waketime) :
  _run_Write eventtime s = (Returned r, s') -> r = At (eventtime + SERIAL_TIMER).
Proof.
  unfold _run_Write. py. destruct (_run_Write_loop s) as [[[]|e] s1];
    [|discriminate].
  intros H. inversion H. reflexivity.
Qed.

(** C10, as the code has it.  [_run_Read] returns [eventtime +
    SERIAL_TIMER] on every invocation in which the bytes it reads decode,
    and [_run_Write] on every invocation in which the non-empty entries it
    gets to encode; after either, the registered timers and the driver's
    handles are as before, unless an I/O exception made it run
    [disconnect]: then [serial] and both handles are [None] and the
    registrations of the two timers are gone, and the next tick is
    returned all the same.  Whenever either returns, what it returns is
    the next tick, never [NEVER]. *)
Theorem pumps_reschedule (eventtime : Q) (s : state) :
  (reached_decode s ->
   exists s',
     _run_Read eventtime s = (Returned (At (eventtime + SERIAL_TIMER)), s')
     /\ (timers (host s') = timers (host s)
         /\ serial (self s') = serial (self s)
         /\ read_timer (self s') = read_timer (self s)
         /\ write_timer (self s') = write_timer (self s)
         \/ serial (self s') = None
            /\ read_timer (self s') = None
            /\ write_timer (self s') = None
            /\ timers (host s')
               = forget (write_timer (self s))
                        (forget (read_timer (self s)) (timers (host s)))))
  /\ (reached_encode s ->
      exists s',
        _run_Write eventtime s = (Returned (At (eventtime + SERIAL_TIMER)), s')
        /\ (timers (host s') = timers (host s)
            /\ serial (self s') = serial (self s)
            /\ read_timer (self s') = read_timer (self s)
            /\ write_timer (self s') = write_timer (self s)
            \/ serial (self s') = None
               /\ read_timer (self s') = None
               /\ write_timer (self s') = None
               /\ timers (host s')
                  = forget (write_timer (self s))
                           (forget (read_timer (self s)) (timers (host s)))))
  /\ (forall r s',
         _run_Read eventtime s = (Returned r, s') ->
         r = At (eventtime + SERIAL_TIMER) /\ r <> NEVER)
  /\ (forall r s',
         _run_Write eventtime s = (Returned r, s') ->
         r = At (eventtime + SERIAL_TIMER) /\ r <> NEVER).
Proof.
  split; [|split; [|split]].
  - intros D. destruct (_run_Read_reached eventtime s D)
      as (s' & consumed & R & _ & _ & T & _).
    exists s'. auto.
  - intros U. apply _run_Write_spec, U.
  - intros r s' R. apply _run_Read_returned in R. subst r.
    split; [reflexivity | discriminate].
  - intros r s' R. apply _run_Write_returned in R. subst r.
    split; [reflexivity | discriminate].
Qed.

(** A connected driver whose port raises on the next read, with ["read"]
    queued and a port that raises on the next write. *)
Definition failing : state :=
  mkState (mkWorld [] [] [read_raises] [false] 0
                   [(0%nat, cb_sample_PLA_SEAR); (1%nat, cb_run_Read);
                    (2%nat, cb_run_Write)] 3%nat [] [])
          (mkPLA_SensorArray (Some (mkSerial (lit "/dev/ttyUSB0") BAUD 1))
                             (Some 1%nat) 0 0 [] [] (Some 2%nat) [lit "read"]
                             0 true 0 [] (lit "/dev/ttyUSB0") (Some 0%nat)).

Lemma pumps_reschedule_witness :
  (exists s',
      _run_Read (1 # 2) failing
      = (Returned (At ((1 # 2) + SERIAL_TIMER)), s')
      /\ serial (self s') = None)
  /\ (exists s',
         _run_Write (1 # 2) failing
         = (Returned (At ((1 # 2) + SERIAL_TIMER)), s')
         /\ serial (self s') = None)
  /\ fst (_run_Read (1 # 2) failing) <> Returned NEVER
  /\ fst (_run_Write (1 # 2) failing) <> Returned NEVER.
Proof.
  destruct (pumps_reschedule (1 # 2) failing) as (Rd & Wr & Rn & Wn).
  destruct Rd as (s1 & R1 & _); [apply all_decode; reflexivity|].
  destruct Wr as (s2 & R2 & _); [apply all_encode; reflexivity|].
  split; [|split; [|split]].
  - exists s1. split; [exact R1|].
    replace s1 with (snd (_run_Read (1 # 2) failing)) by (rewrite R1; reflexivity).
    reflexivity.
  - exists s2. split; [exact R2|].
    replace s2 with (snd (_run_Write (1 # 2) failing)) by (rewrite R2; reflexivity).
    reflexivity.
  - destruct (Rn _ _ R1) as [_ X]. rewrite R1. simpl. intros H.
    apply X. congruence.
  - destruct (Wn _ _ R2) as [_ X]. rewrite R2. simpl. intros H.
    apply X. congruence.
Defined.

(** What C10 says literally fails: when the port delivers a byte that is
    not UTF-8, [_run_Read] does not return the next tick, nor anything:
    [UnicodeDecodeError] is raised out of it; and when an entry queued is
    a lone surrogate, [_run_Write] does not return either:
    [UnicodeEncodeError] is raised out of it. *)
Lemma run_Read_raises_on_noise :
  _run_Read 0 (connected [read_gives [Byte.xff]])
  = (Raised UnicodeDecodeError, connected [])
  /\ fst (_run_Read 0 (connected [read_gives [Byte.xff]]))
     <> Returned (At (0 + SERIAL_TIMER))
  /\ fst (_run_Write 0 surrogate_queued) = Raised UnicodeEncodeError
  /\ fst (_run_Write 0 surrogate_queued) <> Returned (At (0 + SERIAL_TIMER)).
Proof.
  split; [reflexivity|]. split; [discriminate|].
  assert (R : fst (_run_Write 0 surrogate_queued) = Raised UnicodeEncodeError).
  { unfold _run_Write. py.
    rewrite (_run_Write_loop_unencodable surrogate_queued [55296] [lit "read"]);
      reflexivity. }
  rewrite R. split; [reflexivity | discriminate].
Qed.

(** ** C5: how much one invocation reads *)

(** C5 fails in the code.  Whatever else is waiting, the loop of the read
    pump ends right after a read that returned 1000 bytes or fewer: of the
    reads waiting, exactly the first is consumed. *)
Theorem run_Read_stops_after_one_read
        (eventtime : Q) (s : state) (ser : Serial) (raw : bytes) (decoded : str)
        (waiting : list port_step) :
  serial (self s) = Some ser ->
  port_reads (host s) = read_gives raw :: waiting ->
  decode raw = Some decoded ->
  len raw <= 1000 ->
  exists s',
    _run_Read eventtime s = (Returned (At (eventtime + SERIAL_TIMER)), s')
    /\ port_reads (host s') = waiting.
Proof.
  intros C P D L. unfold _run_Read. py.
  destruct (line_framer_spec raw decoded (polled waiting s) D)
    as (segments & remainder & F & _).
  rewrite (_run_Read_loop_gives s _ ser raw waiting _ C P F).
  replace (1000 <? len raw) with false by (symmetry; apply Z.ltb_ge; exact L).
  rewrite _process_read_queue_spec. eexists. split; reflexivity.
Qed.

(** Two lines waiting, each in a read of its own. *)
Definition two_waiting : list port_step :=
  [read_gives (blit "12.5" ++ bCRLF); read_gives (blit "7.3" ++ bCRLF)].

Lemma run_Read_stops_after_one_read_witness :
  exists s',
    _run_Read 0 (connected two_waiting) = (Returned (At (0 + SERIAL_TIMER)), s')
    /\ port_reads (host s') = [read_gives (blit "7.3" ++ bCRLF)].
Proof.
  apply (run_Read_stops_after_one_read
           0 (connected two_waiting) (mkSerial (lit "/dev/ttyUSB0") BAUD 1)
           (blit "12.5" ++ bCRLF) (lit "12.5" ++ CRLF)).
  - reflexivity.
  - reflexivity.
  - reflexivity.
  - vm_compute. discriminate.
Defined.

(** ** C3: the status query *)

(** C3 fails in the code.  After an invocation of the read pump in which
    the bytes delivered decode, [get_status] gives the reactor's time at
    that invocation and, for the message, what it gave before: no line
    forwarded is ever stored.  After a new driver has forwarded the line
    ["12.5"], the message of [get_status] is still the empty string. *)
Theorem get_status_message_never_set (eventtime : Q) (s : state) :
  forallb decodes (port_reads (host s)) = true ->
  (exists s',
      _run_Read eventtime s = (Returned (At (eventtime + SERIAL_TIMER)), s')
      /\ get_status (self s') eventtime
         = (monotonic_clock (host s), last_debug_message (self s)))
  /\ infos (host (snd (_run_Read 0 (connected [read_gives (blit "12.5" ++ bCRLF)]))))
     = [lit "Output from SensorArray: 12.5"]
  /\ snd (get_status
            (self (snd (_run_Read 0 (connected
                                       [read_gives (blit "12.5" ++ bCRLF)]))))
            (1 # 10))
     = [].
Proof.
  intros D. split; [|split; reflexivity].
  destruct (_run_Read_spec eventtime s D)
    as (s' & consumed & R & _ & _ & _ & Msg & Ts & _).
  exists s'. split; [exact R|]. unfold get_status. rewrite Msg, Ts. reflexivity.
Qed.

Lemma get_status_message_never_set_witness :
  forallb decodes
          (port_reads (host (connected [read_gives (blit "12.5" ++ bCRLF)])))
  = true
  /\ exists s',
      _run_Read 0 (connected [read_gives (blit "12.5" ++ bCRLF)])
      = (Returned (At (0 + SERIAL_TIMER)), s')
      /\ get_status (self s') 0 = (0%Q, []).
Proof.
  assert (D : forallb decodes
                (port_reads (host (connected [read_gives (blit "12.5" ++ bCRLF)])))
              = true) by reflexivity.
  split; [exact D|].
  destruct (get_status_message_never_set
              0 (connected [read_gives (blit "12.5" ++ bCRLF)]) D)
    as ((s' & R & G) & _).
  exists s'. split; [exact R | exact G].
Defined.

(** * The rest of the driver *)

(** ** The remaining methods *)

Definition get_report_time_delta : Q := SERIAL_TIMER.

(** [cmd_SEAR_START_CALIBRATION_PROCESS]: it logs, and does nothing
    else. *)
Definition cmd_SEAR_START_CALIBRATION_PROCESS : Py unit := ret tt.

(** [load_config(config)] constructs the object. *)
Definition load_config (config_serial : str) : Py unit := __init__ config_serial.

(** ** The poll callback below the threshold *)

Definition attempts (n : Z) (s : state) : state :=
  mkState (host s) (set_failed_connection_attempts n (self s)).

Lemma _init_PLA_SEAR_fails (s : state) :
  nth 0 (port_opens (host s)) false = false ->
  _init_PLA_SEAR s
  = (Returned tt,
     attempts (_failed_connection_attempts (self s) + 1)
              (mkState (set_port_opens (tl (port_opens (host s))) (host s))
                       (self s))).
Proof.
  intros O. destruct s as [w d]. unfold _init_PLA_SEAR, serial_Serial. py.
  simpl in *.
  destruct (port_opens w) as [|[|] rest] eqn:P; simpl in *;
    [|discriminate|reflexivity].
  unfold attempts. simpl. destruct w; simpl in *. subst. reflexivity.
Qed.

Lemma skipn_tl {A} (n : nat) (l : list A) : skipn n (tl l) = skipn (S n) l.
Proof. destruct l; simpl; [apply skipn_nil | reflexivity]. Qed.

(** X1.  While the driver is disconnected and the port cannot be opened, each
    poll below the threshold makes one attempt, counts it, and asks for the
    next tick: after [n] polls that start at a count [c] with [c + n <= 5]
    the count is [c + n], no shutdown has been requested, nothing was
    opened, and the driver is as it was otherwise. *)
Theorem polls_count_failed_attempts (eventtimes : list Q) (s : state) :
  serial (self s) = None ->
  _failed_connection_attempts (self s) + len eventtimes <= 5 ->
  (forall i, (i < length eventtimes)%nat ->
             nth i (port_opens (host s)) false = false) ->
  poll_ticks eventtimes s
  = (Returned (map (fun eventtime => At (eventtime + SERIAL_TIMER)) eventtimes),
     attempts (_failed_connection_attempts (self s) + len eventtimes)
              (mkState (set_port_opens
                          (skipn (length eventtimes) (port_opens (host s)))
                          (host s))
                       (self s))).
Proof.
  revert s. induction eventtimes as [|t ts IH]; intros s N C O.
  - simpl. unfold attempts, len. simpl. rewrite Z.add_0_r.
    destruct s as [w d]. destruct w, d. reflexivity.
  - unfold len in *. simpl length in *. rewrite Nat2Z.inj_succ in *.
    simpl poll_ticks. unfold bind at 1. unfold _sample_PLA_SEAR at 1. py.
    replace (_failed_connection_attempts (self s) <? 5) with true
      by (symmetry; apply Z.ltb_lt; lia).
    rewrite N. unfold _handle_connect. py. rewrite N.
    rewrite (_init_PLA_SEAR_fails s) by (apply (O 0%nat); lia).
    unfold bind. rewrite IH; simpl.
    + f_equal. unfold attempts. simpl. f_equal.
      * rewrite skipn_tl. destruct (host s); reflexivity.
      * destruct (self s). unfold set_failed_connection_attempts. simpl.
        f_equal. lia.
    + exact N.
    + lia.
    + intros i Hi. rewrite nth_tl. apply O. lia.
Qed.

Lemma polls_count_failed_attempts_witness :
  fst (poll_ticks [0; 1 # 10; 2 # 10]%Q (fresh (lit "/dev/ttyUSB0") quiet))
  = Returned [At (0 + SERIAL_TIMER); At ((1 # 10) + SERIAL_TIMER);
              At ((2 # 10) + SERIAL_TIMER)]
  /\ _failed_connection_attempts
       (self (snd (poll_ticks [0; 1 # 10; 2 # 10]%Q
                              (fresh (lit "/dev/ttyUSB0") quiet))))
     = 3.
Proof.
  rewrite (polls_count_failed_attempts
             [0; 1 # 10; 2 # 10]%Q (fresh (lit "/dev/ttyUSB0") quiet)).
  - split; reflexivity.
  - reflexivity.
  - vm_compute. discriminate.
  - intros i Hi. destruct i as [|[|[|i]]]; reflexivity.
Defined.

(** X2.  A poll below the threshold that finds the port connects: the port is
    opened at the configured path and [BAUD], the failure count is back at
    zero, both queues are empty, the read and write timers are registered
    under two new handles, and the callback asks for the next tick without
    a shutdown request. *)
Theorem poll_connects (eventtime : Q) (s : state) (rest : list bool) :
  serial (self s) = None ->
  _failed_connection_attempts (self s) < 5 ->
  port_opens (host s) = true :: rest ->
  exists s',
    _sample_PLA_SEAR eventtime s = (Returned (At (eventtime + SERIAL_TIMER)), s')
    /\ serial (self s') = Some (mkSerial (serial_port (self s)) BAUD 1)
    /\ _failed_connection_attempts (self s') = 0
    /\ write_queue (self s') = []
    /\ read_queue (self s') = []
    /\ read_timer (self s') = Some (next_handle (host s))
    /\ write_timer (self s') = Some (S (next_handle (host s)))
    /\ timers (host s')
       = timers (host s)
         ++ [(next_handle (host s), cb_run_Read);
             (S (next_handle (host s)), cb_run_Write)]
    /\ events (host s')
       = events (host s) ++ [Open (serial_port (self s)) BAUD]
    /\ port_opens (host s') = rest.
Proof.
  intros N C O. apply Z.ltb_lt in C. destruct s as [w d]. simpl in *.
  eexists. unfold _sample_PLA_SEAR, _handle_connect, _init_PLA_SEAR,
             serial_Serial, register_timer. py.
  simpl. repeat (rewrite ?C, ?N, ?O; simpl). split; [reflexivity|]. simpl.
  repeat split. rewrite <- app_assoc. reflexivity.
Qed.

(** A disconnected driver on a port that opens, with no attempt failed
    yet. *)
Definition plugged_in : state :=
  fresh (lit "/dev/ttyUSB0") (mkWorld [true] [] [] [] 0 [] 0%nat [] []).

Lemma poll_connects_witness :
  exists s',
    _sample_PLA_SEAR 0 plugged_in = (Returned (At (0 + SERIAL_TIMER)), s')
    /\ serial (self s') = Some (mkSerial (lit "/dev/ttyUSB0") BAUD 1)
    /\ _failed_connection_attempts (self s') = 0.
Proof.
  destruct (poll_connects 0 plugged_in [])
    as (s' & R & S1 & C & _); [reflexivity | reflexivity | reflexivity |].
  exists s'. auto.
Defined.

(** X3.  The connect handler of the host is not held back by the failure
    threshold.  Whatever the failure count, also 5 or more, on a
    disconnected driver it opens the port when the port can be opened, and
    sets the count back to zero: after it the poll callback asks for the
    next tick again, queues ["read"], and requests no shutdown. *)
Theorem handle_connect_revives (eventtime : Q) (s : state) (rest : list bool) :
  serial (self s) = None ->
  port_opens (host s) = true :: rest ->
  exists s1,
    _handle_connect s = (Returned tt, s1)
    /\ serial (self s1) = Some (mkSerial (serial_port (self s)) BAUD 1)
    /\ _failed_connection_attempts (self s1) = 0
    /\ _sample_PLA_SEAR eventtime s1
       = (Returned (At (eventtime + SERIAL_TIMER)),
          mkState (host s1) (set_write_queue [lit "read"] (self s1))).
Proof.
  intros N O. destruct s as [w d]. simpl in *.
  eexists. unfold _handle_connect, _init_PLA_SEAR, serial_Serial,
             register_timer. py.
  simpl. repeat (rewrite ?N, ?O; simpl). split; [reflexivity|]. simpl.
  repeat split.
Qed.

(** The driver that gave up after five failed attempts, with the device
    plugged in since. *)
Definition plugged_in_late : state :=
  mkState (set_port_opens [true] (host given_up)) (self given_up).

Lemma handle_connect_revives_witness :
  _failed_connection_attempts (self plugged_in_late) = 5
  /\ fst (_sample_PLA_SEAR 0 plugged_in_late) = Returned NEVER
  /\ exists s1,
      _handle_connect plugged_in_late = (Returned tt, s1)
      /\ _failed_connection_attempts (self s1) = 0
      /\ fst (_sample_PLA_SEAR 0 s1) = Returned (At (0 + SERIAL_TIMER)).
Proof.
  split; [reflexivity|]. split; [reflexivity|].
  destruct (handle_connect_revives 0 plugged_in_late [])
    as (s1 & R & _ & C & P); [reflexivity | reflexivity |].
  exists s1. rewrite P. auto.
Defined.

(** On a connected driver the connect handler does nothing: the port is
    not opened again and no timer is registered a second time. *)
Lemma _handle_connect_connected (s : state) (ser : Serial) :
  serial (self s) = Some ser -> _handle_connect s = (Returned tt, s).
Proof. intros C. unfold _handle_connect. py. rewrite C. reflexivity. Qed.

(** ** The poll callback while connected *)

Lemma _sample_PLA_SEAR_connected (eventtime : Q) (s : state) (ser : Serial) :
  serial (self s) = Some ser ->
  _failed_connection_attempts (self s) < 5 ->
  _sample_PLA_SEAR eventtime s
  = (Returned (At (eventtime + SERIAL_TIMER)),
     mkState (host s)
             (set_write_queue (write_queue (self s) ++ [lit "read"]) (self s))).
Proof.
  intros C L. unfold _sample_PLA_SEAR. py.
  replace (_failed_connection_attempts (self s) <? 5) with true
    by (symmetry; apply Z.ltb_lt; exact L).
  rewrite C. reflexivity.
Qed.

(** X4.  While the driver is connected and below the threshold, each poll
    appends one ["read"] to the outbound queue and asks for the next tick;
    it touches neither the port nor anything else.  Nothing bounds the
    queue: after [n] polls with no write pump in between it holds [n] more
    entries. *)
Theorem polls_queue_read (eventtimes : list Q) (s : state) (ser : Serial) :
  serial (self s) = Some ser ->
  _failed_connection_attempts (self s) < 5 ->
  poll_ticks eventtimes s
  = (Returned (map (fun eventtime => At (eventtime + SERIAL_TIMER)) eventtimes),
     mkState (host s)
             (set_write_queue
                (write_queue (self s) ++ repeat (lit "read") (length eventtimes))
                (self s))).
Proof.
  revert s. induction eventtimes as [|t ts IH]; intros s C L.
  - simpl. rewrite app_nil_r, set_write_queue_same. destruct s; reflexivity.
  - simpl poll_ticks. unfold bind at 1. unfold _sample_PLA_SEAR at 1. py.
    replace (_failed_connection_attempts (self s) <? 5) with true
      by (symmetry; apply Z.ltb_lt; exact L).
    rewrite C. unfold bind. rewrite IH; simpl; auto.
    destruct s as [w d]. simpl. unfold set_write_queue. simpl.
    rewrite <- app_assoc. reflexivity.
Qed.

Lemma polls_queue_read_witness :
  poll_ticks [0; 1 # 10]%Q (connected [])
  = (Returned [At (0 + SERIAL_TIMER); At ((1 # 10) + SERIAL_TIMER)],
     mkState (host (connected []))
             (set_write_queue ([] ++ repeat (lit "read") 2)
                              (self (connected [])))).
Proof.
  apply (polls_queue_read [0; 1 # 10]%Q (connected [])
                          (mkSerial (lit "/dev/ttyUSB0") BAUD 1)).
  - reflexivity.
  - reflexivity.
Defined.

(** X5.  A poll followed by the write pump sends the poll's request: on a
    connected driver below the threshold, when the non-empty entries queued
    before encode as UTF-8 and the port takes the writes, the pump invoked
    after a poll writes what was queued before and then ["read"], and
    leaves the queue empty. *)
Theorem poll_then_write_sends_read (t1 t2 : Q) (s : state) (ser : Serial) :
  serial (self s) = Some ser ->
  _failed_connection_attempts (self s) < 5 ->
  forallb encodes (to_send (write_queue (self s))) = true ->
  (forall k, (k <= length (to_send (write_queue (self s))))%nat ->
             nth k (port_writes (host s)) true = true) ->
  exists s1 s2,
    _sample_PLA_SEAR t1 s = (Returned (At (t1 + SERIAL_TIMER)), s1)
    /\ _run_Write t2 s1 = (Returned (At (t2 + SERIAL_TIMER)), s2)
    /\ written (host s2)
       = written (host s) ++ to_send (write_queue (self s)) ++ [lit "read"]
    /\ write_queue (self s2) = []
    /\ serial (self s2) = Some ser.
Proof.
  intros C L U G. rewrite (_sample_PLA_SEAR_connected t1 s ser C L).
  set (s1 := mkState (host s) (set_write_queue (write_queue (self s) ++ [lit "read"])
                                               (self s))).
  assert (T : to_send (write_queue (self s1))
              = to_send (write_queue (self s)) ++ [lit "read"]).
  { simpl. rewrite to_send_app. reflexivity. }
  destruct (_run_Write_loop_drains (write_queue (self s1)) s1 eq_refl)
    as (w' & W & Ev & _).
  { rewrite T, forallb_app, U. reflexivity. }
  { intros k Hk. unfold goes_through. simpl. rewrite C. apply G.
    rewrite T, length_app in Hk. simpl in Hk. lia. }
  exists s1. eexists. split; [reflexivity|]. unfold _run_Write. py. rewrite W.
  split; [reflexivity|]. simpl. repeat split; auto.
  apply (written_app _ _ _ []); [|auto].
  rewrite Ev, T, app_nil_r. reflexivity.
Qed.

Lemma poll_then_write_sends_read_witness :
  exists s1 s2,
    _sample_PLA_SEAR 0 calibration_queued
    = (Returned (At (0 + SERIAL_TIMER)), s1)
    /\ _run_Write (1 # 20) s1 = (Returned (At ((1 # 20) + SERIAL_TIMER)), s2)
    /\ written (host s2) = [] ++ [lit "CAL" ++ CRLF] ++ [lit "read"]
    /\ write_queue (self s2) = [].
Proof.
  destruct (poll_then_write_sends_read
              0 (1 # 20) calibration_queued
              (mkSerial (lit "/dev/ttyUSB0") BAUD 1))
    as (s1 & s2 & R1 & R2 & W & Q & _).
  - reflexivity.
  - reflexivity.
  - reflexivity.
  - intros k Hk. destruct k as [|[|k]]; reflexivity.
  - exists s1, s2. auto.
Defined.

(** ** More on the line framer *)

(** A text with no whitespace at either end. *)
Definition trimmed (line : str) : Prop :=
  (forall c rest, line = c :: rest -> isspace c = false)
  /\ (forall c body, line = body ++ [c] -> isspace c = false).

Lemma strip_trimmed (s : str) : trimmed (strip s).
Proof.
  unfold strip, rstrip_by, lstrip_by.
  destruct (dropwhile_split isspace s) as (d1 & E1 & _ & H1).
  destruct (dropwhile_split isspace (rev (dropwhile isspace s)))
    as (d2 & E2 & _ & H2).
  split.
  - intros c rest X. apply (f_equal (@rev Z)) in E2.
    rewrite rev_involutive, rev_app_distr, X in E2. simpl in E2.
    apply (H1 c _ E2).
  - intros c body X. apply (f_equal (@rev Z)) in X.
    rewrite rev_involutive, rev_app_distr in X. simpl in X.
    apply (H2 c _ X).
Qed.

(** X6.  Every line the framer queues is trimmed: it neither starts nor ends
    with whitespace, so it keeps nothing of the terminator at its ends. *)
Theorem queued_lines_are_trimmed
        (chunks : list bytes) (texts : list str) (s : state) :
  Forall2 (fun raw_bytes text => decode raw_bytes = Some text) chunks texts ->
  exists s' lines,
    feed chunks s = (Returned tt, s')
    /\ read_queue (self s') = read_queue (self s) ++ lines
    /\ Forall trimmed lines.
Proof.
  intros F. destruct (feed_spec chunks texts s F)
    as (segments & remainder & R & _).
  exists (buffered remainder (framed segments s)), (map strip segments).
  split; [exact R|]. split; [reflexivity|].
  apply Forall_forall. intros line I. apply in_map_iff in I.
  destruct I as (seg & <- & _). apply strip_trimmed.
Qed.

Lemma queued_lines_are_trimmed_witness :
  exists s' lines,
    feed [blit " a " ++ bCRLF] (fresh (lit "/dev/ttyUSB0") quiet)
    = (Returned tt, s')
    /\ read_queue (self s') = [] ++ lines
    /\ Forall trimmed lines.
Proof.
  destruct (queued_lines_are_trimmed
              [blit " a " ++ bCRLF] [lit " a " ++ CRLF]
              (fresh (lit "/dev/ttyUSB0") quiet))
    as (s' & lines & R & Q & T).
  - repeat constructor.
  - exists s', lines. auto.
Defined.

Lemma framer_loop_no_terminator (text_buffer : str) (s : state) :
  find text_buffer CRLF = -1 ->
  framer_loop (text_buffer, s) = (Returned tt, (text_buffer, s)).
Proof.
  intros N. unfold framer_loop. rewrite while_step. unfold framer_round.
  rewrite N. reflexivity.
Qed.

(** X7.  A read that brings no terminator queues nothing: when the buffer
    followed by the decoded bytes holds no ["\r\n"], the whole of it is the
    new buffer.  Nothing bounds the buffer: it grows by the length of the
    decoded text. *)
Theorem unterminated_read_is_buffered
        (raw_bytes : bytes) (decoded : str) (s : state) :
  raw_bytes <> [] ->
  decode raw_bytes = Some decoded ->
  find (read_buffer (self s) ++ decoded) CRLF = -1 ->
  line_framer raw_bytes s
  = (Returned tt, buffered (read_buffer (self s) ++ decoded) s)
  /\ length (read_buffer (self s) ++ decoded)
     = (length (read_buffer (self s)) + length decoded)%nat.
Proof.
  intros E D N. split; [|apply length_app].
  unfold line_framer.
  replace (0 <? len raw_bytes) with true
    by (destruct raw_bytes; [congruence | reflexivity]).
  py. rewrite D. unfold with_local.
  rewrite (framer_loop_no_terminator _ s N). reflexivity.
Qed.

Lemma unterminated_read_is_buffered_witness :
  line_framer (blit "7.") (buffered (lit "12") (fresh (lit "/dev/ttyUSB0") quiet))
  = (Returned tt,
     buffered (lit "12" ++ lit "7.") (buffered (lit "12") (fresh (lit "/dev/ttyUSB0") quiet))).
Proof.
  apply (unterminated_read_is_buffered
           (blit "7.") (lit "7.")
           (buffered (lit "12") (fresh (lit "/dev/ttyUSB0") quiet))).
  - discriminate.
  - reflexivity.
  - reflexivity.
Defined.

(** *** How the stream is cut into reads *)

Lemma framed_framed (segs1 segs2 : list str) (s : state) :
  framed segs2 (framed segs1 s) = framed (segs1 ++ segs2) s.
Proof.
  destruct s as [w d]. unfold framed, set_read_queue. simpl.
  rewrite map_app, app_assoc. reflexivity.
Qed.

(** What the framer cuts from a text does not depend on the object. *)
Lemma framer_loop_uniform (text_buffer : str) :
  exists segments remainder,
    forall s,
      framer_loop (text_buffer, s)
      = (Returned tt, (remainder, framed segments s)).
Proof.
  remember (length text_buffer) as n eqn:Hn. revert text_buffer Hn.
  induction n as [n IH] using lt_wf_ind. intros text_buffer Hn.
  destruct (0 <=? find text_buffer CRLF) eqn:E.
  - assert (D : (length (slice_from text_buffer (find text_buffer CRLF + 1)) < n)%nat).
    { subst n.
      apply (framer_round_decreases
               (text_buffer, fresh [] quiet)
               (slice_from text_buffer (find text_buffer CRLF + 1),
                read_queue_append
                  (strip (slice_to text_buffer (find text_buffer CRLF + 1)))
                  (fresh [] quiet))).
      unfold framer_round. rewrite E. reflexivity. }
    destruct (IH _ D _ eq_refl) as (segments & remainder & R).
    exists (slice_to text_buffer (find text_buffer CRLF + 1) :: segments),
           remainder.
    intros s. unfold framer_loop. rewrite while_step. unfold framer_round at 1.
    rewrite E. fold framer_loop. rewrite R, framed_cons. reflexivity.
  - exists [], text_buffer. intros s. unfold framer_loop. rewrite while_step.
    unfold framer_round at 1. rewrite E, framed_nil. reflexivity.
Qed.

Lemma framer_loop_app (a b : str) (s s1 : state) (r1 : str) :
  framer_loop (a, s) = (Returned tt, (r1, s1)) ->
  framer_loop (a ++ b, s) = framer_loop (r1 ++ b, s1).
Proof.
  remember (length a) as n eqn:Hn. revert a s Hn.
  induction n as [n IH] using lt_wf_ind. intros a s Hn.
  unfold framer_loop at 1. rewrite while_step. unfold framer_round at 1.
  destruct (0 <=? find a CRLF) eqn:E.
  - fold framer_loop. intros R.
    assert (D : (length (slice_from a (find a CRLF + 1)) < n)%nat).
    { subst n.
      apply (framer_round_decreases
               (a, s)
               (slice_from a (find a CRLF + 1),
                read_queue_append (strip (slice_to a (find a CRLF + 1))) s)).
      unfold framer_round. rewrite E. reflexivity. }
    rewrite <- (IH _ D _ _ eq_refl R).
    unfold framer_loop at 1. rewrite while_step. unfold framer_round at 1.
    apply Z.leb_le in E. rewrite (find_app_found a b CRLF E).
    apply Z.leb_le in E. rewrite E. fold framer_loop.
    apply Z.leb_le in E.
    assert (L : (Z.to_nat (find a CRLF + 1) <= length a)%nat).
    { pose proof (find_fits a CRLF E) as L. simpl in L.
      pose proof (find_found a CRLF E) as F.
      assert (length (skipn (Z.to_nat (find a CRLF)) a) <> 0)%nat.
      { apply startswith_cons in F. destruct F as [t ->]. discriminate. }
      rewrite length_skipn in *. lia. }
    unfold slice_to, slice_from.
    rewrite firstn_app, skipn_app.
    replace (Z.to_nat (find a CRLF + 1) - length a)%nat with 0%nat by lia.
    simpl. rewrite app_nil_r. reflexivity.
  - intros R. inversion R; subst. reflexivity.
Qed.

Lemma option_map_cons_some (c : Z) (o : option str) (x : str) :
  option_map (cons c) o = Some x -> exists x', o = Some x' /\ x = c :: x'.
Proof. destruct o as [x'|]; simpl; intros H; inversion H. eauto. Qed.

(** Bytes that decode still decode, to the same text, when more bytes
    follow. *)
Lemma utf8_app (n : nat) :
  forall a x b,
    (length a <= n)%nat -> utf8 a = Some x ->
    utf8 (a ++ b) = option_map (app x) (utf8 b).
Proof.
  induction n as [|n IH]; intros a x b L U.
  - destruct a; [|simpl in L; lia]. simpl in U. inversion U. simpl.
    destruct (utf8 b); reflexivity.
  - destruct a as [|b0 r0].
    { simpl in U. inversion U. simpl. destruct (utf8 b); reflexivity. }
    simpl in L. cbn [utf8 app] in *.
    destruct (b0 <? 128).
    { apply option_map_cons_some in U. destruct U as (x' & U & ->).
      rewrite (IH r0 x' b) by (auto; lia).
      destruct (utf8 b); reflexivity. }
    destruct (between 194 223 b0).
    { destruct r0 as [|b1 r1]; [discriminate|]. cbn [app].
      destruct (continuation b1); [|discriminate].
      apply option_map_cons_some in U. destruct U as (x' & U & ->).
      simpl in L. rewrite (IH r1 x' b) by (auto; lia).
      destruct (utf8 b); reflexivity. }
    destruct (between 224 239 b0).
    { destruct r0 as [|b1 [|b2 r2]]; try discriminate. cbn [app].
      destruct (between _ _ b1 && continuation b2); [|discriminate].
      apply option_map_cons_some in U. destruct U as (x' & U & ->).
      simpl in L. rewrite (IH r2 x' b) by (auto; lia).
      destruct (utf8 b); reflexivity. }
    destruct (between 240 244 b0); [|discriminate].
    destruct r0 as [|b1 [|b2 [|b3 r3]]]; try discriminate. cbn [app].
    destruct (between _ _ b1 && continuation b2 && continuation b3);
      [|discriminate].
    apply option_map_cons_some in U. destruct U as (x' & U & ->).
    simpl in L. rewrite (IH r3 x' b) by (auto; lia).
    destruct (utf8 b); reflexivity.
Qed.

Lemma decode_app (a b : bytes) (x y : str) :
  decode a = Some x -> decode b = Some y -> decode (a ++ b) = Some (x ++ y).
Proof.
  unfold decode. intros A B. rewrite map_app.
  rewrite (utf8_app (length (map octet a)) _ x _ (le_n _) A), B. reflexivity.
Qed.

Lemma line_framer_nil (s : state) : line_framer [] s = (Returned tt, s).
Proof. reflexivity. Qed.

Lemma line_framer_uniform (raw_bytes : bytes) (decoded : str) (s : state) :
  raw_bytes <> [] ->
  decode raw_bytes = Some decoded ->
  forall segments remainder,
    (forall s0, framer_loop (read_buffer (self s) ++ decoded, s0)
                = (Returned tt, (remainder, framed segments s0))) ->
    line_framer raw_bytes s
    = (Returned tt, buffered remainder (framed segments s)).
Proof.
  intros E D segments remainder R. unfold line_framer.
  replace (0 <? len raw_bytes) with true
    by (destruct raw_bytes; [congruence | reflexivity]).
  py. rewrite D. unfold with_local. rewrite R. reflexivity.
Qed.

(** X8.  How the stream is cut into reads does not matter to the framer: when
    two chunks decode, feeding one and then the other leaves the same
    lines queued and the same buffer as feeding the two at once. *)
Theorem chunking_is_immaterial (a b : bytes) (x y : str) (s : state) :
  decode a = Some x ->
  decode b = Some y ->
  feed [a; b] s = feed [a ++ b] s.
Proof.
  intros A B. destruct a as [|a0 a'].
  { simpl. unfold bind. rewrite line_framer_nil. reflexivity. }
  destruct b as [|b0 b'].
  { rewrite app_nil_r. simpl. unfold bind.
    destruct (line_framer (a0 :: a') s) as [[[]|e] s1]; [|reflexivity].
    rewrite line_framer_nil. reflexivity. }
  destruct (framer_loop_uniform (read_buffer (self s) ++ x))
    as (segsA & rA & RA).
  destruct (framer_loop_uniform (rA ++ y)) as (segsB & rB & RB).
  simpl feed. unfold bind.
  rewrite (line_framer_uniform (a0 :: a') x s ltac:(discriminate) A segsA rA RA).
  rewrite (line_framer_uniform (b0 :: b') y (buffered rA (framed segsA s))
             ltac:(discriminate) B segsB rB RB).
  pose proof (decode_app _ _ _ _ A B) as AB. cbn [app] in AB.
  cbn [app].
  rewrite (line_framer_uniform (a0 :: a' ++ b0 :: b') (x ++ y) s
             ltac:(discriminate) AB (segsA ++ segsB) rB).
  - unfold ret. rewrite framed_buffered_framed, buffered_buffered. reflexivity.
  - intros s0. rewrite app_assoc.
    rewrite (framer_loop_app _ y s0 _ _ (RA s0)), RB, framed_framed.
    reflexivity.
Qed.

Lemma chunking_is_immaterial_witness :
  feed scenario_chunks (fresh (lit "/dev/ttyUSB0") quiet)
  = feed [blit "12.5" ++ bCRLF ++ blit "7." ++ blit "3" ++ bCRLF]
         (fresh (lit "/dev/ttyUSB0") quiet).
Proof.
  exact (chunking_is_immaterial
           (blit "12.5" ++ bCRLF ++ blit "7.") (blit "3" ++ bCRLF)
           (lit "12.5" ++ CRLF ++ lit "7.") (lit "3" ++ CRLF)
           (fresh (lit "/dev/ttyUSB0") quiet) eq_refl eq_refl).
Defined.

(** ** More on the read pump *)

Lemma utf8_ascii (l : str) :
  forallb (fun z => z <? 128) l = true -> utf8 l = Some l.
Proof.
  induction l as [|z l IH]; [reflexivity|]. cbn [forallb utf8]. intros H.
  apply andb_true_iff in H. destruct H as [H1 H2].
  rewrite H1, (IH H2). reflexivity.
Qed.

Lemma forallb_octets (p : Z -> bool) (raw : bytes) :
  forallb p (map octet raw) = forallb (fun b => p (octet b)) raw.
Proof. induction raw as [|b raw IH]; simpl; [|rewrite IH]; reflexivity. Qed.

(** Whether a step delivers ASCII bytes only, if it delivers any. *)
Definition plain (step : port_step) : bool :=
  match step with
  | read_gives raw => forallb (fun b => octet b <? 128) raw
  | _ => true
  end.

Lemma plain_decodes (step : port_step) : plain step = true -> decodes step = true.
Proof.
  destruct step as [| | |raw]; auto. unfold plain, decodes, decode. intros H.
  rewrite utf8_ascii; [reflexivity|]. rewrite forallb_octets. exact H.
Qed.

(** X9.  ASCII bytes decode to themselves, one code point a byte, and a port
    that delivers nothing but ASCII never makes the read pump raise: the
    pump returns [eventtime + SERIAL_TIMER]. *)
Theorem plain_reads_are_safe (eventtime : Q) (s : state) :
  forallb plain (port_reads (host s)) = true ->
  (forall raw, In (read_gives raw) (port_reads (host s)) ->
               decode raw = Some (map octet raw))
  /\ exists s',
      _run_Read eventtime s = (Returned (At (eventtime + SERIAL_TIMER)), s').
Proof.
  intros P. split.
  - intros raw I. rewrite forallb_forall in P. specialize (P _ I). simpl in P.
    unfold decode. apply utf8_ascii. rewrite forallb_octets. exact P.
  - destruct (_run_Read_spec eventtime s) as (s' & consumed & R & _).
    + rewrite forallb_forall in *. intros step I. apply plain_decodes, P, I.
    + exists s'. exact R.
Qed.

Lemma plain_reads_are_safe_witness :
  decode (blit "12.5" ++ bCRLF) = Some (map octet (blit "12.5" ++ bCRLF))
  /\ exists s',
      _run_Read 0 (connected two_waiting) = (Returned (At (0 + SERIAL_TIMER)), s').
Proof.
  destruct (plain_reads_are_safe 0 (connected two_waiting)) as [D R].
  - reflexivity.
  - split; [apply D; left; reflexivity | exact R].
Defined.

(** X10.  From the port to the console.  When a connected driver reads 1000
    bytes or fewer that decode, the invocation cuts the buffer followed by
    the decoded text into segments and a new buffer: the cuts fall at the
    terminators, one after the other, each segment reaching up to the
    carriage return of the first ["\r\n"] of what was left, and when bytes
    were read the new buffer holds no terminator (when none were, nothing
    is cut).  It tells the console first the lines that were still queued
    and then the stripped segments, each less its trailing NULs, in order;
    it leaves the inbound queue empty, stamps the time, stays connected
    and takes nothing more from the port. *)
Theorem read_pump_forwards_lines
        (eventtime : Q) (s : state) (ser : Serial) (raw : bytes) (decoded : str)
        (waiting : list port_step) :
  serial (self s) = Some ser ->
  port_reads (host s) = read_gives raw :: waiting ->
  decode raw = Some decoded ->
  len raw <= 1000 ->
  exists s' segments,
    _run_Read eventtime s = (Returned (At (eventtime + SERIAL_TIMER)), s')
    /\ concat segments ++ read_buffer (self s')
       = read_buffer (self s) ++ decoded
    /\ cut_at_terminators segments (read_buffer (self s'))
    /\ (raw <> [] -> find (read_buffer (self s')) CRLF = -1)
    /\ (raw = [] -> segments = [])
    /\ events (host s')
       = events (host s)
         ++ map (fun line => Info (lit "Output from SensorArray: "
                                   ++ rstrip line [NUL]))
                (read_queue (self s) ++ map strip segments)
    /\ read_queue (self s') = []
    /\ serial (self s') = Some ser
    /\ last_debug_timestamp (self s') = monotonic_clock (host s)
    /\ port_reads (host s') = waiting.
Proof.
  intros C P D L. unfold _run_Read. py.
  destruct (line_framer_cuts raw decoded (polled waiting s) D)
    as (segments & remainder & F & Cat & _ & Cut & _ & Some_ & None_).
  rewrite (_run_Read_loop_gives s _ ser raw waiting _ C P F).
  replace (1000 <? len raw) with false by (symmetry; apply Z.ltb_ge; exact L).
  rewrite _process_read_queue_spec. eexists. exists segments.
  split; [reflexivity|]. simpl. repeat split; auto.
Qed.

Lemma read_pump_forwards_lines_witness :
  exists s' segments,
    _run_Read 0 (connected two_waiting) = (Returned (At (0 + SERIAL_TIMER)), s')
    /\ concat segments ++ read_buffer (self s') = [] ++ lit "12.5" ++ CRLF
    /\ cut_at_terminators segments (read_buffer (self s'))
    /\ find (read_buffer (self s')) CRLF = -1
    /\ events (host s')
       = [] ++ map (fun line => Info (lit "Output from SensorArray: "
                                      ++ rstrip line [NUL]))
                   ([] ++ map strip segments).
Proof.
  destruct (read_pump_forwards_lines
              0 (connected two_waiting) (mkSerial (lit "/dev/ttyUSB0") BAUD 1)
              (blit "12.5" ++ bCRLF) (lit "12.5" ++ CRLF)
              [read_gives (blit "7.3" ++ bCRLF)])
    as (s' & segments & R & Cat & Cut & Clean & _ & Ev & _).
  - reflexivity.
  - reflexivity.
  - reflexivity.
  - vm_compute. discriminate.
  - exists s', segments. repeat split; auto. apply Clean. discriminate.
Defined.

Lemma disconnect_unconnected (disconnect_message : str) (s : state) :
  serial (self s) = None ->
  exists w',
    disconnect disconnect_message s
    = (Returned tt, mkState w' (disconnected disconnect_message (self s)))
    /\ events w' = events (host s)
    /\ timers w'
       = forget (write_timer (self s))
                (forget (read_timer (self s)) (timers (host s)))
    /\ port_kept (host s) w'.
Proof.
  intros N. destruct s as [w d]. simpl in N. unfold disconnect.
  cbv [bind on_self modify]. rewrite try_swallow.
  cbv [bind get]. simpl. rewrite N. cbn [close raise snd].
  rewrite try_swallow. cbv [bind get]. simpl.
  match goal with |- context [unregister_timer ?t ?st] =>
    destruct (unregister_timer_spec t st) as (r2 & w2 & -> & T2 & E2 & K2) end.
  cbn [snd]. rewrite try_swallow. cbv [bind get]. simpl.
  match goal with |- context [unregister_timer ?t ?st] =>
    destruct (unregister_timer_spec t st) as (r3 & w3 & -> & T3 & E3 & K3) end.
  simpl in *. exists w3. split; [reflexivity|].
  rewrite T3, T2, E3, E2. split; [reflexivity|]. split; [reflexivity|].
  eapply port_kept_trans; eassumption.
Qed.

(** X11.  The read pump invoked on a disconnected driver reads nothing: it
    leaves the port as it is, runs [disconnect] once more, which appends
    another ["d"] to the outbound queue, forwards the lines still queued,
    and asks for the next tick. *)
Theorem read_pump_while_disconnected (eventtime : Q) (s : state) :
  serial (self s) = None ->
  exists s',
    _run_Read eventtime s = (Returned (At (eventtime + SERIAL_TIMER)), s')
    /\ port_reads (host s') = port_reads (host s)
    /\ serial (self s') = None
    /\ write_queue (self s') = write_queue (self s) ++ [lit "d"]
    /\ read_buffer (self s') = read_buffer (self s)
    /\ read_queue (self s') = []
    /\ events (host s')
       = events (host s)
         ++ map (fun line => Info (lit "Output from SensorArray: "
                                   ++ rstrip line [NUL]))
                (read_queue (self s)).
Proof.
  intros N. unfold _run_Read. py.
  rewrite (_run_Read_loop_unconnected s N).
  destruct (disconnect_unconnected (lit "d") s N) as (w' & R & E & _ & K).
  rewrite R, _process_read_queue_spec. eexists. split; [reflexivity|].
  destruct K as (_ & K & _). simpl. rewrite K, E. repeat split.
Qed.

Lemma read_pump_while_disconnected_witness :
  exists s',
    _run_Read 0 (fresh (lit "/dev/ttyUSB0") quiet)
    = (Returned (At (0 + SERIAL_TIMER)), s')
    /\ write_queue (self s') = [] ++ [lit "d"].
Proof.
  destruct (read_pump_while_disconnected 0 (fresh (lit "/dev/ttyUSB0") quiet))
    as (s' & R & _ & _ & W & _).
  - reflexivity.
  - exists s'. auto.
Defined.

(** ** Runs of the driver *)

Definition set_monotonic_clock (v : Q) (w : World) : World :=
  mkWorld (port_opens w) (port_closes w) (port_reads w) (port_writes w) v
    (timers w) (next_handle w) (ready_gcode_handlers w) (events w).

(** What the host does with a loaded driver: it delivers one of the three
    events the driver registered for, the reactor invokes one of its three
    callbacks, or the operator issues the calibration command.  [elapse]
    is the clock of the host moving on. *)
Inductive entry : Type :=
| klippy_connect
| klippy_disconnect
| klippy_shutdown
| invoke_sample (eventtime : Q)
| invoke_Read (eventtime : Q)
| invoke_Write (eventtime : Q)
| calibrate
| elapse (now : Q).

Definition enter (e : entry) : Py unit :=
  match e with
  | klippy_connect => _handle_connect
  | klippy_disconnect => _handle_disconnect
  | klippy_shutdown => _handle_shutdown
  | invoke_sample eventtime => _sample_PLA_SEAR eventtime;; ret tt
  | invoke_Read eventtime => _run_Read eventtime;; ret tt
  | invoke_Write eventtime => _run_Write eventtime;; ret tt
  | calibrate => cmd_SEAR_START_CALIBRATION_PROCESS
  | elapse now => on_host (set_monotonic_clock now)
  end.

(** The state after the entries, in any order and whether or not the
    reactor would have invoked the callback; after an entry that raised,
    the run goes on from the state it left. *)
Fixpoint run (entries : list entry) (s : state) : state :=
  match entries with
  | [] => s
  | e :: later => run later (snd (enter e s))
  end.

(** A host whose registered handles are distinct and were all issued. *)
Definition reactor_ok (w : World) : Prop :=
  NoDup (map fst (timers w))
  /\ Forall (fun t => (fst t < next_handle w)%nat) (timers w).

(** What every state of a run has, [w0] being the world the driver was
    loaded in; what it says of the timers is for a [w0] whose reactor is
    in order. *)
Record consistent (w0 : World) (s : state) : Prop := mkConsistent {
  handles_ok : reactor_ok w0 -> reactor_ok (host s);
  sample_registered :
    reactor_ok w0 ->
    exists h, sample_timer (self s) = Some h
              /\ In (h, cb_sample_PLA_SEAR) (timers (host s));
  pumps_registered :
    reactor_ok w0 ->
    match serial (self s) with
    | None => read_timer (self s) = None /\ write_timer (self s) = None
    | Some _ =>
      exists rt wt,
        read_timer (self s) = Some rt /\ write_timer (self s) = Some wt
        /\ In (rt, cb_run_Read) (timers (host s))
        /\ In (wt, cb_run_Write) (timers (host s))
    end;
  only_read_queued :
    serial (self s) <> None -> Forall (eq (lit "read")) (write_queue (self s));
  message_empty : last_debug_message (self s) = [];
  only_read_written :
    exists k, written (host s) = written w0 ++ repeat (lit "read") k
}.

(** What [consistent] looks at. *)
Definition same_view (s s' : state) : Prop :=
  timers (host s') = timers (host s)
  /\ next_handle (host s') = next_handle (host s)
  /\ written (host s') = written (host s)
  /\ serial (self s') = serial (self s)
  /\ read_timer (self s') = read_timer (self s)
  /\ write_timer (self s') = write_timer (self s)
  /\ write_queue (self s') = write_queue (self s)
  /\ last_debug_message (self s') = last_debug_message (self s)
  /\ sample_timer (self s') = sample_timer (self s).

Lemma consistent_same_view (w0 : World) (s s' : state) :
  same_view s s' -> consistent w0 s -> consistent w0 s'.
Proof.
  intros (T & N & W & S1 & Rt & Wt & Wq & M & St) [H1 H2 H3 H4 H5 H6].
  unfold reactor_ok in *.
  constructor; unfold reactor_ok;
    rewrite ?T, ?N, ?W, ?S1, ?Rt, ?Wt, ?Wq, ?M, ?St; assumption.
Qed.

Lemma same_view_refl (s : state) : same_view s s.
Proof. repeat split. Qed.

Lemma same_view_trans (s1 s2 s3 : state) :
  same_view s1 s2 -> same_view s2 s3 -> same_view s1 s3.
Proof.
  unfold same_view. intros (A1 & A2 & A3 & A4 & A5 & A6 & A7 & A8 & A9)
                           (B1 & B2 & B3 & B4 & B5 & B6 & B7 & B8 & B9).
  repeat split; congruence.
Qed.

(** Events other than writes leave [written] as it is. *)
Definition silent (e : event) : bool :=
  match e with Write _ => false | _ => true end.

Lemma written_silent (w w' : World) (evs : list event) :
  events w' = events w ++ evs -> forallb silent evs = true ->
  written w' = written w.
Proof.
  intros E S. unfold written. rewrite E, flat_map_app.
  replace (flat_map _ evs) with (@nil (list Z)); [apply app_nil_r|].
  clear E. induction evs as [|e evs IH]; [reflexivity|]. simpl in *.
  apply andb_true_iff in S. destruct S as [S1 S2].
  destruct e; try discriminate; simpl; auto.
Qed.

Lemma silent_outputs (queue : list str) :
  forallb silent (map output_of queue) = true.
Proof. induction queue; simpl; auto. Qed.

Lemma remove_timer_In (t : handle * callback) (h : handle)
      (ts : list (handle * callback)) :
  In t (remove_timer h ts) -> In t ts.
Proof.
  induction ts as [|[a cb] ts IH]; [auto|]. cbn [remove_timer fst].
  destruct (Nat.eqb a h); simpl; intuition.
Qed.

Lemma remove_timer_keeps (h h' : handle) (cb : callback)
      (ts : list (handle * callback)) :
  h <> h' -> In (h, cb) ts -> In (h, cb) (remove_timer h' ts).
Proof.
  intros N. induction ts as [|[a c] ts IH]; [auto|]. cbn [remove_timer fst].
  intros [E|I].
  - inversion E; subst. destruct (Nat.eqb h h') eqn:X;
      [apply Nat.eqb_eq in X; congruence | left; reflexivity].
  - destruct (Nat.eqb a h'); [exact I | right; apply IH; exact I].
Qed.

Lemma handle_has_one_callback (h : handle) (c1 c2 : callback)
      (ts : list (handle * callback)) :
  NoDup (map fst ts) -> In (h, c1) ts -> In (h, c2) ts -> c1 = c2.
Proof.
  induction ts as [|[a c] ts IH]; simpl; [intros _ []|].
  intros N I1 I2. inversion N as [|x l Hn N']; subst.
  destruct I1 as [E1|I1], I2 as [E2|I2].
  - congruence.
  - inversion E1; subst. exfalso. apply Hn.
    apply (in_map fst) in I2. exact I2.
  - inversion E2; subst. exfalso. apply Hn.
    apply (in_map fst) in I1. exact I1.
  - apply IH; assumption.
Qed.

Lemma reactor_ok_forget (timer : option handle) (w w' : World) :
  timers w' = forget timer (timers w) -> next_handle w' = next_handle w ->
  reactor_ok w -> reactor_ok w'.
Proof.
  unfold reactor_ok. intros T N [D F]. rewrite T, N.
  destruct timer as [h|]; simpl; [|auto]. split.
  - apply remove_timer_NoDup. exact D.
  - rewrite Forall_forall in *. intros t I. apply F.
    eapply remove_timer_In. exact I.
Qed.

Lemma consistent_disconnect (w0 : World) (msg : str) (s : state) :
  consistent w0 s -> consistent w0 (snd (disconnect msg s)).
Proof.
  intros [H1 H2 H3 H4 H5 H6].
  destruct (disconnect_spec msg s) as (w' & R & T & E & K).
  rewrite R. simpl. destruct K as (_ & _ & _ & _ & N).
  assert (W : written w' = written (host s)).
  { destruct E as [E|E].
    - apply (written_silent _ _ []); [rewrite app_nil_r; exact E | reflexivity].
    - apply (written_silent _ _ [Close]); [exact E | reflexivity]. }
  constructor; simpl.
  - intros g. specialize (H1 g).
    apply (reactor_ok_forget (write_timer (self s))
             (set_timers (forget (read_timer (self s)) (timers (host s))) (host s)));
      [exact T | exact N |].
    apply (reactor_ok_forget (read_timer (self s)) (host s));
      [reflexivity | reflexivity | exact H1].
  - intros g. specialize (H1 g). specialize (H3 g).
    destruct (H2 g) as (h & St & I). exists h. split; [exact St|]. rewrite T.
    destruct (serial (self s)) as [ser|].
    + destruct H3 as (rt & wt & -> & -> & Ir & Iw). simpl.
      destruct H1 as [D _].
      apply remove_timer_keeps.
      * intros ->. pose proof (handle_has_one_callback _ _ _ _ D I Iw).
        discriminate.
      * apply remove_timer_keeps; [|exact I].
        intros ->. pose proof (handle_has_one_callback _ _ _ _ D I Ir).
        discriminate.
    + destruct H3 as [-> ->]. exact I.
  - auto.
  - intros X. congruence.
  - exact H5.
  - rewrite W. exact H6.
Qed.

Lemma _init_PLA_SEAR_returns (s : state) :
  exists s', _init_PLA_SEAR s = (Returned tt, s').
Proof.
  destruct (port_opens (host s)) as [|[|] rest] eqn:O.
  - rewrite _init_PLA_SEAR_fails by (rewrite O; reflexivity). eauto.
  - destruct (_init_PLA_SEAR_opens s rest O) as (s' & R & _). eauto.
  - rewrite _init_PLA_SEAR_fails by (rewrite O; reflexivity). eauto.
Qed.

Lemma consistent_init (w0 : World) (s : state) :
  serial (self s) = None ->
  consistent w0 s -> consistent w0 (snd (_init_PLA_SEAR s)).
Proof.
  intros N H. destruct (port_opens (host s)) as [|[|] rest] eqn:O.
  - rewrite _init_PLA_SEAR_fails by (rewrite O; reflexivity). simpl.
    apply (consistent_same_view w0 s); [repeat split | exact H].
  - destruct H as [H1 H2 H3 H4 H5 (k & H6)].
    destruct s as [w d]. simpl in *.
    unfold _init_PLA_SEAR, serial_Serial, register_timer. py. simpl.
    rewrite O. simpl. constructor; simpl.
    + intros g. destruct (H1 g) as [D F]. unfold reactor_ok. simpl. split.
      * rewrite <- app_assoc, map_app. simpl. rewrite Forall_forall in F.
        apply NoDup_app; [exact D | | ].
        -- repeat constructor; simpl; [intros [X|[]]; lia | intros []].
        -- intros x Ix [<-|[<-|[]]]; apply in_map_iff in Ix;
             destruct Ix as (t & E & It); apply F in It; simpl in It;
             unfold handle in *; lia.
      * rewrite <- app_assoc. apply Forall_app. split.
        -- eapply Forall_impl; [|exact F]. intros t Ht. simpl in *. lia.
        -- repeat constructor; simpl; lia.
    + intros g. destruct (H2 g) as (h & St & I).
      exists h. split; [exact St|]. rewrite <- app_assoc.
      apply in_or_app. left. exact I.
    + intros _. exists (next_handle w), (S (next_handle w)).
      rewrite <- app_assoc.
      repeat split; apply in_or_app; right; simpl; auto.
    + intros _. constructor.
    + exact H5.
    + exists k. rewrite <- H6. unfold written. simpl.
      rewrite flat_map_app. simpl. apply app_nil_r.
  - rewrite _init_PLA_SEAR_fails by (rewrite O; reflexivity). simpl.
    apply (consistent_same_view w0 s); [repeat split | exact H].
Qed.

Lemma consistent_handle_connect (w0 : World) (s : state) :
  consistent w0 s -> consistent w0 (snd (_handle_connect s)).
Proof.
  intros H. unfold _handle_connect. py.
  destruct (serial (self s)) as [ser|] eqn:C; [exact H|].
  apply consistent_init; assumption.
Qed.

Lemma _handle_connect_returns (s : state) :
  exists s', _handle_connect s = (Returned tt, s').
Proof.
  unfold _handle_connect. py. destruct (serial (self s)); [eauto|].
  apply _init_PLA_SEAR_returns.
Qed.

Lemma consistent_sample (w0 : World) (eventtime : Q) (s : state) :
  consistent w0 s -> consistent w0 (snd (_sample_PLA_SEAR eventtime s)).
Proof.
  intros H. unfold _sample_PLA_SEAR. py.
  destruct (_failed_connection_attempts (self s) <? 5).
  - destruct (serial (self s)) as [ser|] eqn:C.
    + simpl. destruct H as [H1 H2 H3 H4 H5 H6].
      rewrite C in H3, H4.
      constructor; simpl; rewrite ?C; try assumption.
      intros _. apply Forall_app. split; [apply H4; congruence|].
      repeat constructor.
    + pose proof (consistent_handle_connect w0 s H) as H'.
      destruct (_handle_connect_returns s) as (s' & R). rewrite R in *.
      simpl in *. destruct s'; exact H'.
  - simpl. apply (consistent_same_view w0 s); [|exact H].
    repeat split. simpl.
    apply (written_silent _ _ [Shutdown lost]); reflexivity.
Qed.

Lemma line_framer_view (raw_bytes : bytes) (s s' : state) (r : outcome unit) :
  line_framer raw_bytes s = (r, s') -> same_view s s'.
Proof.
  unfold line_framer. destruct (0 <? len raw_bytes).
  2:{ intros H; inversion H; apply same_view_refl. }
  py. destruct (decode raw_bytes) as [decoded|] eqn:D.
  2:{ intros H; inversion H; apply same_view_refl. }
  unfold with_local.
  destruct (framer_loop_spec (read_buffer (self s) ++ decoded) s)
    as (segments & remainder & -> & _).
  intros H; inversion H. repeat split.
Qed.

Lemma consistent_read_round (w0 : World) (s s' : state) (r : outcome bool) :
  consistent w0 s -> _run_Read_round s = (r, s') -> consistent w0 s'.
Proof.
  intros H. unfold _run_Read_round, in_waiting_then_read. py.
  assert (Dis : forall st, consistent w0 st ->
                  forall r0 : outcome bool,
                    (let (o, s'0) := disconnect (lit "d") st in
                     match o with
                     | Returned _ => (Returned None, s'0)
                     | Raised e => (Raised e, s'0)
                     end) = (@Returned (option (list Byte.byte)) None,
                             snd (disconnect (lit "d") st))).
  { intros st _ _. destruct (disconnect_spec (lit "d") st) as (w' & -> & _).
    reflexivity. }
  destruct (serial (self s)) as [ser|] eqn:C.
  2:{ rewrite (Dis s H r). intros X; inversion X; subst.
      apply consistent_disconnect. exact H. }
  assert (P : forall rest, consistent w0 (polled rest s)).
  { intros rest. apply (consistent_same_view w0 s); [repeat split | exact H]. }
  destruct (port_reads (host s)) as [|[| | |raw] rest] eqn:R; simpl.
  - intros X; inversion X; subst. exact H.
  - fold (polled rest s). rewrite (Dis _ (P rest) r).
    intros X; inversion X; subst. apply consistent_disconnect, P.
  - intros X; inversion X; subst. apply P.
  - fold (polled rest s). rewrite (Dis _ (P rest) r).
    intros X; inversion X; subst. apply consistent_disconnect, P.
  - fold (polled rest s).
    destruct (line_framer raw (polled rest s)) as [[[]|e] s1] eqn:F;
      apply line_framer_view in F.
    + destruct (1000 <? len raw); intros X; inversion X; subst.
      * apply (consistent_same_view w0 (polled rest s)); [|apply P].
        eapply same_view_trans; [exact F|]. repeat split. simpl.
        apply (written_silent _ _ [Shutdown (lit "Buffer to large.")]);
          reflexivity.
      * apply (consistent_same_view w0 (polled rest s)); [exact F | apply P].
    + intros X; inversion X; subst.
      apply (consistent_same_view w0 (polled rest s)); [exact F | apply P].
Qed.

Lemma consistent_read (w0 : World) (eventtime : Q) (s : state) :
  consistent w0 s -> consistent w0 (snd (_run_Read eventtime s)).
Proof.
  intros H. unfold _run_Read. py.
  destruct (_run_Read_loop s) as [[[]|e] s1] eqn:L;
    apply (while_invariant polls_left _run_Read_round _run_Read_round_decreases
             (consistent w0)) in L;
    try exact H; try (intros s0 r0 s0' H0 R0; eapply consistent_read_round; eassumption).
  - rewrite _process_read_queue_spec. simpl.
    apply (consistent_same_view w0 s1); [|exact L]. repeat split. simpl.
    apply (written_silent _ _ (map output_of (read_queue (self s1))));
      [reflexivity | apply silent_outputs].
  - exact L.
Qed.

Lemma write_spec (ser : option Serial) (data : str) (s : state) :
  exists r w',
    write ser data s = (r, mkState w' (self s))
    /\ timers w' = timers (host s)
    /\ next_handle w' = next_handle (host s)
    /\ (r = Returned tt /\ ser <> None
        /\ events w' = events (host s) ++ [Write data]
        \/ (exists e, r = Raised e) /\ events w' = events (host s)).
Proof.
  destruct s as [w d]. unfold write. py. simpl.
  destruct ser as [ser|]; simpl;
    [destruct (port_writes w) as [|[|] rest]|]; simpl;
    do 2 eexists; (split; [reflexivity|]); simpl; repeat split;
    try (left; repeat split; congruence); right; eauto.
Qed.

Lemma consistent_write_round (w0 : World) (s s' : state) (r : outcome bool) :
  consistent w0 s -> _run_Write_round s = (r, s') -> consistent w0 s'.
Proof.
  intros H. unfold _run_Write_round. py.
  destruct (write_queue (self s)) as [|text_line rest] eqn:Q.
  { intros X; inversion X; subst. exact H. }
  assert (P : consistent w0 (popped rest s)).
  { destruct H as [H1 H2 H3 H4 H5 H6]. constructor; simpl; auto.
    intros C. specialize (H4 C). rewrite Q in H4. inversion H4. assumption. }
  fold (popped rest s). destruct (0 <? len text_line).
  2:{ intros X; inversion X; subst. exact P. }
  unfold encoded. destruct (encode text_line) as [raw|].
  2:{ intros X; inversion X; subst. exact P. }
  py. destruct (write_spec (serial (self s)) text_line (popped rest s))
    as (r1 & w1 & W & T & N & [(-> & C & E)|((e & ->) & E)]); rewrite W.
  - intros X; inversion X; subst.
    destruct H as [_ _ _ H4 _ _]. specialize (H4 C). rewrite Q in H4.
    inversion H4 as [|x0 l0 Hx Hl]; subst.
    destruct P as [P1 P2 P3 P4 P5 (k & P6)]. simpl in *.
    unfold reactor_ok in *.
    constructor; simpl; unfold reactor_ok; rewrite ?T, ?N; auto.
    exists (S k). unfold written in *. rewrite E, flat_map_app, P6. simpl.
    rewrite <- app_assoc. f_equal.
    change (lit "read" :: repeat (lit "read") k)
      with (repeat (lit "read") (S k)).
    rewrite <- repeat_cons. reflexivity.
  - destruct (disconnect_spec (lit "d") (mkState w1 (self (popped rest s))))
      as (w' & R & _).
    pose proof (consistent_disconnect w0 (lit "d")
                  (mkState w1 (self (popped rest s)))) as D.
    rewrite R in *. intros X; inversion X; subst. apply D.
    apply (consistent_same_view w0 (popped rest s)); [|exact P].
    repeat split; simpl; auto.
    apply (written_silent _ _ []); [rewrite app_nil_r; exact E | reflexivity].
Qed.

Lemma consistent_write (w0 : World) (eventtime : Q) (s : state) :
  consistent w0 s -> consistent w0 (snd (_run_Write eventtime s)).
Proof.
  intros H. unfold _run_Write. py.
  destruct (_run_Write_loop s) as [[[]|e] s1] eqn:L;
    apply (while_invariant writes_queued _run_Write_round
             _run_Write_round_decreases (consistent w0)) in L;
    try exact H;
    try (intros s0 r0 s0' H0 R0; eapply consistent_write_round; eassumption);
    exact L.
Qed.

Lemma consistent_enter (w0 : World) (e : entry) (s : state) :
  consistent w0 s -> consistent w0 (snd (enter e s)).
Proof.
  intros H. destruct e; simpl enter.
  - apply consistent_handle_connect, H.
  - apply consistent_disconnect, H.
  - apply consistent_disconnect, H.
  - unfold bind. pose proof (consistent_sample w0 eventtime s H) as X.
    destruct (_sample_PLA_SEAR eventtime s) as [[r|e] s']; exact X.
  - unfold bind. pose proof (consistent_read w0 eventtime s H) as X.
    destruct (_run_Read eventtime s) as [[r|e] s']; exact X.
  - unfold bind. pose proof (consistent_write w0 eventtime s H) as X.
    destruct (_run_Write eventtime s) as [[r|e] s']; exact X.
  - exact H.
  - simpl. apply (consistent_same_view w0 s); [repeat split | exact H].
Qed.

Lemma consistent_run (w0 : World) (entries : list entry) (s : state) :
  consistent w0 s -> consistent w0 (run entries s).
Proof.
  revert s. induction entries as [|e later IH]; intros s H; [exact H|].
  simpl. apply IH, consistent_enter, H.
Qed.

Lemma consistent_fresh (config_serial : str) (w : World) :
  consistent w (fresh config_serial w).
Proof.
  unfold fresh, __init__, register_timer, register_command. py.
  simpl.
  destruct (existsb _ (ready_gcode_handlers w)); simpl;
    (constructor; simpl;
     [ intros [D F]; unfold reactor_ok; simpl; split;
       [ rewrite map_app; simpl; apply NoDup_app; [exact D | | ];
         [ repeat constructor; intros []
         | intros x Ix [<-|[]]; apply in_map_iff in Ix;
           destruct Ix as (t & E & It); rewrite Forall_forall in F;
           apply F in It; simpl in It; unfold handle in *; lia ]
       | apply Forall_app; split;
         [ eapply Forall_impl; [|exact F]; intros t Ht; simpl in *; lia
         | repeat constructor; simpl; lia ] ]
     | intros _; exists (next_handle w); split; [reflexivity|];
       apply in_or_app; right; left; reflexivity
     | auto
     | intros X; congruence
     | reflexivity
     | exists 0%nat; simpl; rewrite app_nil_r; reflexivity ]).
Qed.

(** *** What every run keeps *)

(** X12.  In a host whose registered handles are distinct and were all issued,
    every run from a newly loaded driver keeps them so, and keeps the
    driver's timers in step with its connection: the poll timer stays
    registered; while the driver is connected its read and write handles
    are registered for [_run_Read] and [_run_Write]; while it is
    disconnected it holds neither handle. *)
Theorem run_keeps_timers_in_step
        (config_serial : str) (w : World) (entries : list entry) :
  reactor_ok w ->
  let s := run entries (fresh config_serial w) in
  reactor_ok (host s)
  /\ (exists h, sample_timer (self s) = Some h
                /\ In (h, cb_sample_PLA_SEAR) (timers (host s)))
  /\ match serial (self s) with
     | None => read_timer (self s) = None /\ write_timer (self s) = None
     | Some _ =>
       exists rt wt,
         read_timer (self s) = Some rt /\ write_timer (self s) = Some wt
         /\ In (rt, cb_run_Read) (timers (host s))
         /\ In (wt, cb_run_Write) (timers (host s))
     end.
Proof.
  intros g s.
  destruct (consistent_run w entries _ (consistent_fresh config_serial w))
    as [H1 H2 H3 _ _ _].
  split; [exact (H1 g)|]. split; [exact (H2 g) | exact (H3 g)].
Qed.

(** A session: the device is found at the second poll, a line is read, a
    request is written, the host disconnects, and the pumps are invoked
    once more. *)
Definition session : list entry :=
  [invoke_sample 0; invoke_sample (1 # 10); invoke_sample (2 # 10);
   invoke_Write (2 # 10); invoke_Read (2 # 10); calibrate; elapse (3 # 10);
   klippy_disconnect; invoke_Write (3 # 10); invoke_Read (3 # 10);
   klippy_connect; invoke_sample (4 # 10); invoke_Write (4 # 10);
   klippy_shutdown].

Definition session_world : World :=
  mkWorld [false; true; true] [] [read_gives (blit "12.5" ++ bCRLF)] [] 0
          [] 0%nat [] [].

Lemma run_keeps_timers_in_step_witness :
  reactor_ok session_world
  /\ reactor_ok (host (run session (fresh (lit "/dev/ttyUSB0") session_world)))
  /\ serial (self (run session (fresh (lit "/dev/ttyUSB0") session_world)))
     = None
  /\ read_timer (self (run session (fresh (lit "/dev/ttyUSB0") session_world)))
     = None.
Proof.
  assert (g : reactor_ok session_world)
    by (split; simpl; constructor).
  split; [exact g|].
  destruct (run_keeps_timers_in_step (lit "/dev/ttyUSB0") session_world session g)
    as (H1 & _ & H3).
  split; [exact H1|]. split; [reflexivity|].
  change (serial (self (run session (fresh (lit "/dev/ttyUSB0") session_world))))
    with (@None Serial) in H3.
  exact (proj1 H3).
Defined.

(** X13.  Nothing but ["read"] ever goes out on the port.  Whatever the host does
    with a newly loaded driver, in whatever order, the texts written to the
    port are the ones written before it was loaded followed by some number
    of ["read"]: the disconnect message ["d"] is queued by [disconnect] but
    never written, and the calibration command writes nothing. *)
Theorem only_read_is_ever_written
        (config_serial : str) (w : World) (entries : list entry) :
  exists k,
    written (host (run entries (fresh config_serial w)))
    = written w ++ repeat (lit "read") k.
Proof.
  destruct (consistent_run w entries _ (consistent_fresh config_serial w))
    as [_ _ _ _ _ H6].
  exact H6.
Qed.

(** X14.  While the driver is connected, its outbound queue holds nothing but
    ["read"]: a ["d"] is only ever queued on the way to being
    disconnected, and a successful connection starts from an empty
    queue. *)
Theorem connected_queue_holds_only_read
        (config_serial : str) (w : World) (entries : list entry) (ser : Serial) :
  serial (self (run entries (fresh config_serial w))) = Some ser ->
  Forall (eq (lit "read"))
         (write_queue (self (run entries (fresh config_serial w)))).
Proof.
  intros C.
  destruct (consistent_run w entries _ (consistent_fresh config_serial w))
    as [_ _ _ H4 _ _].
  apply H4. congruence.
Qed.

(** A session that ends connected, with two polls not yet written. *)
Definition polling : list entry :=
  [invoke_sample 0; klippy_disconnect; invoke_sample (1 # 10);
   invoke_sample (2 # 10); invoke_sample (3 # 10)].

Lemma connected_queue_holds_only_read_witness :
  write_queue (self (run polling (fresh (lit "/dev/ttyUSB0") session_world)))
  = [lit "read"; lit "read"]
  /\ Forall (eq (lit "read"))
            (write_queue
               (self (run polling (fresh (lit "/dev/ttyUSB0") session_world)))).
Proof.
  split; [reflexivity|].
  apply (connected_queue_holds_only_read
           (lit "/dev/ttyUSB0") session_world polling
           (mkSerial (lit "/dev/ttyUSB0") BAUD 1)).
  reflexivity.
Defined.

(** X15.  The status query never reports a line.  Whatever the host does with a
    newly loaded driver, the message [get_status] returns is the empty
    string. *)
Theorem status_message_is_always_empty
        (config_serial : str) (w : World) (entries : list entry) (eventtime : Q) :
  snd (get_status (self (run entries (fresh config_serial w))) eventtime) = [].
Proof.
  destruct (consistent_run w entries _ (consistent_fresh config_serial w))
    as [_ _ _ _ H5 _].
  exact H5.
Qed.

(** ** Loading the driver *)

Lemma str_eqb_refl (a : str) : str_eqb a a = true.
Proof. unfold str_eqb. destruct (list_eq_dec Z.eq_dec a a); congruence. Qed.

Lemma existsb_app_last (p : str -> bool) (l : list str) (x : str) :
  p x = true -> existsb p (l ++ [x]) = true.
Proof.
  intros H. rewrite existsb_app. simpl. rewrite H. apply orb_true_iff.
  right. reflexivity.
Qed.

(** The driver newly loaded in the host of [s], for a section of its
    own. *)
Definition loaded (config_serial : str) (w : World) : state :=
  snd (load_config config_serial (mkState w uninitialised)).

(** X16.  Loading registers the calibration command once for the host and a poll
    timer for each driver.  After a load the command is known to the
    console; a second driver loaded into the same host registers no
    command again, gets a poll timer under another handle than the first,
    and leaves the first one's registered.  Neither load opens the port:
    both drivers start disconnected, with empty buffers and no attempt
    counted. *)
Theorem loading_twice (first second : str) (w : World) :
  let s1 := loaded first w in
  let s2 := loaded second (host s1) in
  existsb (str_eqb (lit "SEAR_START_CALIBRATION_PROCESS"))
          (ready_gcode_handlers (host s1)) = true
  /\ ready_gcode_handlers (host s2) = ready_gcode_handlers (host s1)
  /\ sample_timer (self s1) = Some (next_handle w)
  /\ sample_timer (self s2) = Some (S (next_handle w))
  /\ timers (host s2)
     = timers w ++ [(next_handle w, cb_sample_PLA_SEAR);
                    (S (next_handle w), cb_sample_PLA_SEAR)]
  /\ events (host s2) = events w
  /\ port_opens (host s2) = port_opens w
  /\ serial (self s1) = None /\ serial (self s2) = None
  /\ serial_port (self s1) = first /\ serial_port (self s2) = second
  /\ _failed_connection_attempts (self s1) = 0
  /\ read_buffer (self s1) = [] /\ read_queue (self s1) = []
  /\ write_queue (self s1) = []
  /\ _failed_connection_attempts (self s2) = 0
  /\ read_buffer (self s2) = [] /\ read_queue (self s2) = []
  /\ write_queue (self s2) = [].
Proof.
  intros s1 s2.
  assert (K : existsb (str_eqb (lit "SEAR_START_CALIBRATION_PROCESS"))
                      (ready_gcode_handlers (host s1)) = true).
  { subst s1. unfold loaded, load_config, __init__, register_timer,
                register_command. py. simpl.
    destruct (existsb _ (ready_gcode_handlers w)) eqn:E; simpl.
    - exact E.
    - apply existsb_app_last, str_eqb_refl. }
  split; [exact K|].
  subst s2. unfold loaded at 1 2 3 4 5 6 7 8 9 10 11.
  unfold load_config, __init__, register_timer, register_command. py.
  simpl. rewrite K. simpl. clear K.
  subst s1. unfold loaded, load_config, __init__, register_timer,
              register_command. py. simpl.
  destruct (existsb _ (ready_gcode_handlers w)); simpl;
    rewrite <- app_assoc; repeat split.
Qed.
